(** * The SOP response parser of [sop-text-generator.ts]

    A shallow embedding of [SOPTextGenerator.parseSOPResponse]: the line
    loop that turns a "###"/"####"-delimited text into a two-level tree of
    sections, and the metadata it attaches to the result.

    - JavaScript strings are sequences of UTF-16 code units ([list N]).
    - The objects the loop allocates and mutates through [currentSection]
      and [currentSubsection] live in an explicit store of locations, so
      that the aliasing between [currentSubsection] and the element pushed
      onto [currentSection.subsections] is part of the model.
    - [new Date()] and [Math.random()] are the only reads outside the
      arguments; they are passed in as an [Ambient] value.

    The keyword-driven pattern choice of [sop-image-generator.ts]
    ([selectPatternByKeywords]) is embedded as well. *)

From Stdlib Require Import String Ascii NArith ZArith DecimalString.
From stdpp Require Import base option list numbers.

Open Scope nat_scope.
Open Scope list_scope.

(** ** JavaScript strings *)

Module JsString.

Definition char := N.
Definition jsstring := list char.

(** A string literal of the source, as code units. *)
Definition lit (s : string) : jsstring :=
  map N_of_ascii (list_ascii_of_string s).

Definition LF : char := 10%N.

(** ECMAScript WhiteSpace and LineTerminator code points: the set that
    [String.prototype.trim] strips and that [\s] matches. *)
Definition is_space (c : char) : bool :=
  ((9 <=? c) && (c <=? 13) || (c =? 32) || (c =? 160) || (c =? 5760)
   || (8192 <=? c) && (c <=? 8202) || (c =? 8232) || (c =? 8233)
   || (c =? 8239) || (c =? 8287) || (c =? 12288) || (c =? 65279))%N.

(** [\d] *)
Definition is_digit (c : char) : bool := ((48 <=? c) && (c <=? 57))%N.

Fixpoint trimStart (s : jsstring) : jsstring :=
  match s with
  | c :: r => if is_space c then trimStart r else s
  | [] => []
  end.

Fixpoint trimEnd (s : jsstring) : jsstring :=
  match s with
  | [] => []
  | c :: r =>
      match trimEnd r with
      | [] => if is_space c then [] else [c]
      | r' => c :: r'
      end
  end.

Definition trim (s : jsstring) : jsstring := trimEnd (trimStart s).

Fixpoint startsWith (p s : jsstring) : bool :=
  match p, s with
  | [], _ => true
  | a :: p', b :: s' => (a =? b)%N && startsWith p' s'
  | _ :: _, [] => false
  end.

(** [s.split(sep)] for a one-unit separator: never the empty array. *)
Fixpoint split (sep : char) (s : jsstring) : list jsstring :=
  match s with
  | [] => [[]]
  | c :: r =>
      if (c =? sep)%N then [] :: split sep r
      else match split sep r with
           | cur :: rest => (c :: cur) :: rest
           | [] => [[c]]
           end
  end.

(** [s.padStart(n, pad)] for a one-unit [pad]. *)
Definition padStart (n : nat) (pad : char) (s : jsstring) : jsstring :=
  replicate (n - length s) pad ++ s.

(** [String(n)] and [`${n}`] on integers (decimal notation, which is what
    JavaScript prints below 1e21). *)
Definition String_of_nat (n : nat) : jsstring :=
  lit (NilZero.string_of_uint (Nat.to_uint n)).

Definition String_of_Z (z : Z) : jsstring :=
  lit (NilZero.string_of_int (Z.to_int z)).

End JsString.
Import JsString.

(** ** The regular expressions of the parser

    Every pattern of the source is a start-anchored sequence of literal
    units, [c*] and [c+] over a character class. [exec] is the backtracking
    matcher for that fragment: quantifiers are greedy and give units back
    one at a time when the rest of the pattern fails. *)

Module Regex.

Inductive atom :=
| Unit (c : char)
| Star (cls : char -> bool)
| Plus (cls : char -> bool).

Definition regex := list atom.

(** [star cls k s]: let [cls*] take the longest run it can at the start
    of [s], then shorter ones, until the continuation [k] accepts. *)
Fixpoint star (cls : char -> bool) (k : jsstring -> option jsstring)
    (s : jsstring) : option jsstring :=
  match s with
  | x :: s' =>
      if cls x then
        match star cls k s' with
        | Some r => Some r
        | None => k s
        end
      else k s
  | [] => k []
  end.

(** [exec re s]: the rest of [s] after the match of [^re], if any. *)
Fixpoint exec (re : regex) : jsstring -> option jsstring :=
  match re with
  | [] => fun s => Some s
  | Unit c :: re' =>
      fun s =>
        match s with
        | x :: s' => if (x =? c)%N then exec re' s' else None
        | [] => None
        end
  | Star cls :: re' => star cls (exec re')
  | Plus cls :: re' =>
      fun s =>
        match s with
        | x :: s' => if cls x then star cls (exec re') s' else None
        | [] => None
        end
  end.

(** [s.replace(/^re/, '')] *)
Definition replace (re : regex) (s : jsstring) : jsstring :=
  match exec re s with
  | Some r => r
  | None => s
  end.

Definition hash : char := 35%N.
Definition dot : char := 46%N.

(** [/^###\s*/] *)
Definition re_h3 : regex := [Unit hash; Unit hash; Unit hash; Star is_space].
(** [/^\d+\.\s*/] *)
Definition re_num_dot : regex := [Plus is_digit; Unit dot; Star is_space].
(** [/^\d+\s+/] *)
Definition re_num_space : regex := [Plus is_digit; Plus is_space].
(** [/^####\s*/] *)
Definition re_h4 : regex :=
  [Unit hash; Unit hash; Unit hash; Unit hash; Star is_space].
(** [/^\d+\.\d+\s*/] *)
Definition re_num_num : regex :=
  [Plus is_digit; Unit dot; Plus is_digit; Star is_space].
(** [/^\d+\.\d+\.\s*/] *)
Definition re_num_num_dot : regex :=
  [Plus is_digit; Unit dot; Plus is_digit; Unit dot; Star is_space].

End Regex.
Import Regex.

(** ** Data model *)

(** [SOPTextInput]; [any] stands for the element type of the untyped arrays. *)
Record SOPTextInput (any : Type) := {
  in_title : jsstring;
  in_description : jsstring;
  in_steps : list any;
  in_inputs : list any;
  in_outputs : list any;
  in_actors : option (list jsstring);
  in_risks : option (list any);
  in_dependencies : option (list any)
}.
Arguments in_title {any} _.

(** What the function reads besides its arguments: the [Date] that
    [new Date()] builds, observed through the three methods called on it,
    and the value of [Math.floor(Math.random() * 1000)]. *)
Record Date := {
  getFullYear : Z;
  getMonth : nat;
  toISOString : jsstring
}.

Record Ambient := {
  now : Date;
  random1000 : nat
}.

(** Store locations. *)
Abbreviation loc := nat (only parsing).

(** An [SOPSection] object in the store; [subsections] holds references. *)
Record SOPSection := {
  number : jsstring;
  title : jsstring;
  content : jsstring;
  subsections : option (list loc)
}.

Abbreviation heap := (list SOPSection) (only parsing).

#[local] Set Warnings "-register-all".

(** An [SOPSection] read out of the store as a value. *)
Inductive SectionTree :=
| Node (num ttl body : jsstring) (subs : option (list SectionTree)).

Definition tree_number (t : SectionTree) : jsstring :=
  match t with Node n _ _ _ => n end.
Definition tree_title (t : SectionTree) : jsstring :=
  match t with Node _ t _ _ => t end.
Definition tree_content (t : SectionTree) : jsstring :=
  match t with Node _ _ c _ => c end.
Definition tree_subsections (t : SectionTree) : option (list SectionTree) :=
  match t with Node _ _ _ s => s end.

Record GeneratedSOPText := {
  doc_title : jsstring;
  doc_documentNumber : jsstring;
  doc_version : jsstring;
  doc_effectiveDate : jsstring;
  doc_sections : list SectionTree
}.

(** ** The store *)

Module Store.

Definition alloc (h : heap) (o : SOPSection) : loc * heap :=
  (length h, h ++ [o]).

Definition read (h : heap) (l : loc) : option SOPSection := h !! l.

(** Writing through a reference that is not in the store is stuck. *)
Definition write (h : heap) (l : loc) (o : SOPSection) : option heap :=
  if decide (l < length h) then Some (<[l:=o]> h) else None.

(** The value of the object graph under [l], to depth [fuel]. *)
Fixpoint readout (fuel : nat) (h : heap) (l : loc) : option SectionTree :=
  match fuel with
  | 0 => None
  | S fuel' =>
      o ← read h l;
      subs ← match subsections o with
              | None => Some None
              | Some ls => Some <$> mapM (readout fuel' h) ls
              end;
      Some (Node (number o) (title o) (content o) subs)
  end.

End Store.
Import Store.

(** ** The parser *)

(** The [let] variables of [parseSOPResponse] and the store they point into. *)
Record Locals := {
  store : heap;
  sections : list loc;
  currentSection : option loc;
  currentSubsection : option loc;
  sectionNumber : nat;
  subsectionNumber : nat
}.

Definition initial : Locals :=
  {| store := []; sections := []; currentSection := None;
     currentSubsection := None; sectionNumber := 1; subsectionNumber := 1 |}.

(** [x || ''] on a string. *)
Definition or_empty (s : jsstring) : jsstring :=
  match s with [] => lit "" | _ => s end.

(** The title of a "###" line. *)
Definition section_title (trimmedLine : jsstring) : jsstring :=
  trim (replace re_num_space (replace re_num_dot (replace re_h3 trimmedLine))).

(** The title of a "####" line. *)
Definition subsection_title (trimmedLine : jsstring) : jsstring :=
  trim (replace re_num_num_dot (replace re_num_num (replace re_h4 trimmedLine))).

Definition is_main (trimmedLine : jsstring) : bool :=
  startsWith (lit "###") trimmedLine && negb (startsWith (lit "####") trimmedLine).

Definition is_sub (trimmedLine : jsstring) : bool :=
  startsWith (lit "####") trimmedLine.

(** [o.content = (o.content || '') + line + '\n'] on the object at [l]. *)
Definition append_content (h : heap) (l : loc) (line : jsstring) : option heap :=
  o ← read h l;
  write h l {| number := number o; title := title o;
               content := or_empty (content o) ++ line ++ [LF];
               subsections := subsections o |}.

(** One iteration of [for (const line of lines)] (lines 225-279). The
    result is [None] only when a reference outside the store is followed,
    which the simulation below shows never happens. *)
Definition loop_body (st : Locals) (line : jsstring) : option Locals :=
  let trimmedLine := trim line in
  if is_main trimmedLine then
    let sections' :=
      match currentSection st with
      | Some c => sections st ++ [c]
      | None => sections st
      end in
    let '(l, h) :=
      alloc (store st)
        {| number := String_of_nat (sectionNumber st);
           title := section_title trimmedLine;
           content := lit "";
           subsections := Some [] |} in
    Some {| store := h; sections := sections';
            currentSection := Some l; currentSubsection := None;
            sectionNumber := S (sectionNumber st); subsectionNumber := 1 |}
  else if is_sub trimmedLine then
    match currentSection st with
    | Some c =>
        sec ← read (store st) c;
        let '(l, h) :=
          alloc (store st)
            {| number := number sec ++ lit "." ++ String_of_nat (subsectionNumber st);
               title := subsection_title trimmedLine;
               content := lit "";
               subsections := None |} in
        sec' ← read h c;
        h' ← write h c
               {| number := number sec'; title := title sec';
                  content := content sec';
                  subsections :=
                    Some (default [] (subsections sec') ++ [l]) |};
        Some {| store := h'; sections := sections st;
                currentSection := Some c; currentSubsection := Some l;
                sectionNumber := sectionNumber st;
                subsectionNumber := S (subsectionNumber st) |}
    | None => Some st
    end
  else if 0 <? length trimmedLine then
    match currentSubsection st with
    | Some l =>
        h ← append_content (store st) l line;
        Some {| store := h; sections := sections st;
                currentSection := currentSection st;
                currentSubsection := currentSubsection st;
                sectionNumber := sectionNumber st;
                subsectionNumber := subsectionNumber st |}
    | None =>
        match currentSection st with
        | Some c =>
            h ← append_content (store st) c line;
            Some {| store := h; sections := sections st;
                    currentSection := currentSection st;
                    currentSubsection := currentSubsection st;
                    sectionNumber := sectionNumber st;
                    subsectionNumber := subsectionNumber st |}
        | None => Some st
        end
    end
  else Some st.

(** The whole [for] loop. *)
Fixpoint loop (st : Locals) (lines : list jsstring) : option Locals :=
  match lines with
  | [] => Some st
  | line :: rest => st' ← loop_body st line; loop st' rest
  end.

(** "Add last section". *)
Definition flush (st : Locals) : list loc :=
  match currentSection st with
  | Some c => sections st ++ [c]
  | None => sections st
  end.

(** The [sections] array of the result for the given lines, as a value. *)
Definition parse_lines (lines : list jsstring) : option (list SectionTree) :=
  st ← loop initial lines;
  mapM (readout (S (length (store st))) (store st)) (flush st).

(** [`SOP-${year}-${month}-${random}`] *)
Definition documentNumber (env : Ambient) : jsstring :=
  lit "SOP-" ++ String_of_Z (getFullYear (now env)) ++ lit "-"
  ++ padStart 2 48%N (String_of_nat (getMonth (now env) + 1)) ++ lit "-"
  ++ padStart 3 48%N (String_of_nat (random1000 env)).

(** [now.toISOString().split('T')[0]] *)
Definition effectiveDate (env : Ambient) : jsstring :=
  default [] (head (split 84%N (toISOString (now env)))).

(** [parseSOPResponse(text, input)] (lines 216-297), with the clock and
    the random draw it reads as [env]. *)
Definition parseSOPResponse {any : Type} (env : Ambient) (text : jsstring)
    (input : SOPTextInput any) : option GeneratedSOPText :=
  secs ← parse_lines (split LF text);
  Some {| doc_title := in_title input;
          doc_documentNumber := documentNumber env;
          doc_version := lit "1.0";
          doc_effectiveDate := effectiveDate env;
          doc_sections := secs |}.

(** ** The result in document order

    The nodes of a result, each section followed by its subsections. *)

Inductive rank := MainSection | SubSection.

Record Entry := {
  e_rank : rank;
  e_number : jsstring;
  e_title : jsstring;
  e_content : jsstring
}.

Definition entry (r : rank) (t : SectionTree) : Entry :=
  {| e_rank := r; e_number := tree_number t; e_title := tree_title t;
     e_content := tree_content t |}.

Definition entries_of (t : SectionTree) : list Entry :=
  entry MainSection t :: map (entry SubSection) (default [] (tree_subsections t)).

Definition entries (ts : list SectionTree) : list Entry :=
  concat (map entries_of ts).

Definition with_content (e : Entry) (c : jsstring) : Entry :=
  {| e_rank := e_rank e; e_number := e_number e; e_title := e_title e;
     e_content := c |}.

(** The three kinds of line the loop distinguishes besides blank ones. *)
Definition main_line (line : jsstring) : bool := is_main (trim line).
Definition sub_line (line : jsstring) : bool :=
  negb (is_main (trim line)) && is_sub (trim line).
Definition content_line (line : jsstring) : bool :=
  negb (is_main (trim line)) && negb (is_sub (trim line))
  && (0 <? length (trim line)).

(** ** A store-free account of the loop

    The same loop over values: the sections already closed, and the open
    section as its own node and its subsections, newest first. The store of
    [loop] is the [layout] of this state. *)

Module Pure.

Record Leaf := {
  l_number : jsstring;
  l_title : jsstring;
  l_content : jsstring
}.

Record Sec := {
  s_head : Leaf;
  s_subs : list Leaf
}.

Record State := {
  a_done : list Sec;
  a_cur : option (Leaf * list Leaf);
  a_secNo : nat;
  a_subNo : nat
}.

Definition start : State :=
  {| a_done := []; a_cur := None; a_secNo := 1; a_subNo := 1 |}.

Definition close (c : Leaf * list Leaf) : Sec :=
  {| s_head := c.1; s_subs := reverse c.2 |}.

Definition view (a : State) : list Sec :=
  a_done a ++ option_list (close <$> a_cur a).

Definition grow (x : Leaf) (s : jsstring) : Leaf :=
  {| l_number := l_number x; l_title := l_title x;
     l_content := l_content x ++ s |}.

(** Append to the newest node of the open section. *)
Definition grow_open (c : Leaf * list Leaf) (s : jsstring) : Leaf * list Leaf :=
  match c.2 with
  | [] => (grow c.1 s, [])
  | x :: r => (c.1, grow x s :: r)
  end.

Definition step (a : State) (line : jsstring) : State :=
  let trimmedLine := trim line in
  if is_main trimmedLine then
    {| a_done := view a;
       a_cur := Some ({| l_number := String_of_nat (a_secNo a);
                         l_title := section_title trimmedLine;
                         l_content := [] |}, []);
       a_secNo := S (a_secNo a); a_subNo := 1 |}
  else if is_sub trimmedLine then
    match a_cur a with
    | Some (hd, subs) =>
        {| a_done := a_done a;
           a_cur := Some (hd,
             {| l_number := l_number hd ++ lit "." ++ String_of_nat (a_subNo a);
                l_title := subsection_title trimmedLine;
                l_content := [] |} :: subs);
           a_secNo := a_secNo a; a_subNo := S (a_subNo a) |}
    | None => a
    end
  else if 0 <? length trimmedLine then
    match a_cur a with
    | Some c =>
        {| a_done := a_done a; a_cur := Some (grow_open c (line ++ [LF]));
           a_secNo := a_secNo a; a_subNo := a_subNo a |}
    | None => a
    end
  else a.

Definition run (a : State) (lines : list jsstring) : State :=
  foldl step a lines.

(** Objects of one section at store position [base]. *)
Definition leaf_obj (x : Leaf) : SOPSection :=
  {| number := l_number x; title := l_title x; content := l_content x;
     subsections := None |}.

Definition sec_objs (base : nat) (s : Sec) : list SOPSection :=
  {| number := l_number (s_head s); title := l_title (s_head s);
     content := l_content (s_head s);
     subsections := Some (seq (S base) (length (s_subs s))) |}
  :: map leaf_obj (s_subs s).

(** The store after the sections [ss] were built one after the other,
    and the position of each. *)
Definition place (ss : list Sec) : heap * list loc :=
  foldl (fun hp s => (hp.1 ++ sec_objs (length hp.1) s, hp.2 ++ [length hp.1]))
        ([], []) ss.

Definition layout (ss : list Sec) : heap := (place ss).1.
Definition positions (ss : list Sec) : list loc := (place ss).2.

Definition tree_of_leaf (x : Leaf) : SectionTree :=
  Node (l_number x) (l_title x) (l_content x) None.

Definition tree_of_sec (s : Sec) : SectionTree :=
  Node (l_number (s_head s)) (l_title (s_head s)) (l_content (s_head s))
       (Some (map tree_of_leaf (s_subs s))).

(** The text gathered by a node from the lines after its heading. *)
Fixpoint body (lines : list jsstring) : jsstring :=
  match lines with
  | [] => []
  | l :: r =>
      if is_main (trim l) || is_sub (trim l) then []
      else if 0 <? length (trim l) then l ++ [LF] ++ body r
      else body r
  end.

(** The subsections opened by [lines] before the next "###" line. *)
Fixpoint subs_of (secnum : jsstring) (k : nat) (lines : list jsstring)
    : list Leaf :=
  match lines with
  | [] => []
  | l :: r =>
      if is_main (trim l) then []
      else if is_sub (trim l) then
        {| l_number := secnum ++ lit "." ++ String_of_nat k;
           l_title := subsection_title (trim l);
           l_content := body r |} :: subs_of secnum (S k) r
      else subs_of secnum k r
  end.

(** The sections opened by [lines], numbered from [n]. *)
Fixpoint secs_of (n : nat) (lines : list jsstring) : list Sec :=
  match lines with
  | [] => []
  | l :: r =>
      if is_main (trim l) then
        {| s_head := {| l_number := String_of_nat n;
                        l_title := section_title (trim l);
                        l_content := body r |};
           s_subs := subs_of (String_of_nat n) 1 r |} :: secs_of (S n) r
      else secs_of n r
  end.

(** The open section once [lines] have been read up to the next "###". *)
Definition complete (c : Leaf * list Leaf) (k : nat) (lines : list jsstring)
    : Sec :=
  {| s_head := (grow_open c (body lines)).1;
     s_subs := reverse (grow_open c (body lines)).2
               ++ subs_of (l_number c.1) k lines |}.

End Pure.
Import Pure.

(** Number of lines satisfying [p]. *)
Fixpoint count_lines (p : jsstring -> bool) (lines : list jsstring) : nat :=
  match lines with
  | [] => 0
  | l :: r => (if p l then 1 else 0) + count_lines p r
  end.

(** The entries of a section of the store-free account. *)
Definition leaf_entry (r : rank) (x : Leaf) : Entry :=
  {| e_rank := r; e_number := l_number x; e_title := l_title x;
     e_content := l_content x |}.

Definition sec_entries (s : Sec) : list Entry :=
  leaf_entry MainSection (s_head s) :: map (leaf_entry SubSection) (s_subs s).

(** ** Sample values *)

Module Sample.

Definition input (t : string) : SOPTextInput unit :=
  {| in_title := lit t; in_description := lit ""; in_steps := [];
     in_inputs := []; in_outputs := []; in_actors := None;
     in_risks := None; in_dependencies := None |}.

Definition november : Ambient :=
  {| now := {| getFullYear := 2026; getMonth := 10;
               toISOString := lit "2026-11-02T09:30:00.000Z" |};
     random1000 := 7 |}.

Definition december : Ambient :=
  {| now := {| getFullYear := 2026; getMonth := 11;
               toISOString := lit "2026-12-24T18:00:00.000Z" |};
     random1000 := 512 |}.

(** The scenario of the specification. *)
Definition scenario : jsstring :=
  lit "### Purpose
This explains why.
#### Scope Note
Limited to dept A.
### Procedure
1. Step One - do thing
".

Definition numbered_sub : jsstring :=
  lit "### Scope
#### 1.1. Title
body".

Definition orphan : jsstring :=
  lit "#### Orphan
text
### Later".

Definition deep : jsstring :=
  lit "### Top
intro
##### Deep
detail".

End Sample.

(** ** Views of the input lines *)

(** A line that opens a node when a section is open. *)
Definition heading_line (line : jsstring) : bool :=
  is_main (trim line) || is_sub (trim line).

(** The lines from the first one satisfying [p] on. *)
Fixpoint drop_until (p : jsstring -> bool) (lines : list jsstring)
    : list jsstring :=
  match lines with
  | [] => []
  | l :: r => if p l then lines else drop_until p r
  end.

(** The lines before the first one satisfying [p]. *)
Fixpoint take_until (p : jsstring -> bool) (lines : list jsstring)
    : list jsstring :=
  match lines with
  | [] => []
  | l :: r => if p l then [] else l :: take_until p r
  end.

(** The rank and title a heading line gives to its node. *)
Definition outline_of (line : jsstring) : rank * jsstring :=
  if is_main (trim line) then (MainSection, section_title (trim line))
  else (SubSection, subsection_title (trim line)).

Definition with_newline (line : jsstring) : jsstring := line ++ [LF].

(** An entry without its number. *)
Definition unnumbered (e : Entry) : rank * jsstring * jsstring :=
  (e_rank e, e_title e, e_content e).

Definition starts_with_digit (s : jsstring) : bool :=
  match s with
  | c :: _ => is_digit c
  | [] => false
  end.

(** ** The pattern choice of [sop-image-generator.ts] *)

Module ImageGenerator.

(** Which of the five pattern generators [selectPatternByKeywords] calls. *)
Inductive Pattern :=
| Manufacturing | Technology | Healthcare | Finance | Generic.

(** [s.includes(needle)] *)
Fixpoint includes (needle s : jsstring) : bool :=
  startsWith needle s
  || match s with
     | [] => false
     | _ :: r => includes needle r
     end.

(** [ks.join(sep)] *)
Fixpoint join (sep : jsstring) (ks : list jsstring) : jsstring :=
  match ks with
  | [] => []
  | k :: r =>
      match r with
      | [] => k
      | _ :: _ => k ++ sep ++ join sep r
      end
  end.

(** [selectPatternByKeywords(keywords)] (lines 183-197). The Unicode case
    mapping behind [toLowerCase] is a parameter. *)
Definition selectPatternByKeywords (toLowerCase : jsstring -> jsstring)
    (keywords : list jsstring) : Pattern :=
  let keywordStr := toLowerCase (join (lit " ") keywords) in
  if includes (lit "manufacturing") keywordStr
     || includes (lit "production") keywordStr then Manufacturing
  else if includes (lit "software") keywordStr
          || includes (lit "technology") keywordStr then Technology
  else if includes (lit "healthcare") keywordStr
          || includes (lit "medical") keywordStr then Healthcare
  else if includes (lit "finance") keywordStr
          || includes (lit "banking") keywordStr then Finance
  else Generic.

(** [input.keywords || ['process', 'workflow', 'quality']] followed by the
    pattern choice, as in [generateFallbackSVG] (lines 121-124). *)
Definition fallbackPattern (toLowerCase : jsstring -> jsstring)
    (keywords : option (list jsstring)) : Pattern :=
  selectPatternByKeywords toLowerCase
    (default [lit "process"; lit "workflow"; lit "quality"] keywords).

(** [toLowerCase] on a code unit below 128. *)
Definition lower_ascii (c : char) : char :=
  if ((65 <=? c) && (c <=? 90))%N then (c + 32)%N else c.

Definition is_ascii (s : jsstring) : bool := forallb (fun c => (c <? 128)%N) s.

(** A keyword contains [needle] once in lower case. *)
Definition mentions (needle k : jsstring) : bool :=
  includes needle (map lower_ascii k).

End ImageGenerator.

(** [Inv st a]: the variables and the store of the loop are the layout of
    the store-free state [a]. In particular [currentSubsection], when set,
    refers to the newest object of the store, which is also the last element
    of the open section's [subsections]. *)
Record Inv (st : Locals) (a : State) : Prop := {
  inv_store : store st = layout (view a);
  inv_sections : sections st = positions (a_done a);
  inv_cur :
    currentSection st = (fun _ => length (layout (a_done a))) <$> a_cur a;
  inv_sub :
    currentSubsection st
    = match a_cur a with
      | Some (_, _ :: _) => Some (length (store st) - 1)
      | _ => None
      end;
  inv_secNo : sectionNumber st = a_secNo a;
  inv_subNo : subsectionNumber st = a_subNo a
}.

(** * Facts about the building blocks *)

Section StringFacts.

Lemma or_empty_id s : or_empty s = s.
Proof. by destruct s. Qed.

Lemma startsWith_app p s : startsWith p (p ++ s) = true.
Proof.
  induction p as [|a p IH]; [done|]. simpl. by rewrite N.eqb_refl, IH.
Qed.

(** A string that [trimEnd] leaves alone has no trailing space, and
    neither has any of its non-empty suffixes. *)
Lemma trimEnd_suffix p q :
  trimEnd (p ++ q) = p ++ q -> q <> [] -> trimEnd q = q.
Proof.
  induction p as [|c p IH]; [done|]. simpl. intros H Hq.
  destruct (trimEnd (p ++ q)) as [|d r'] eqn:E.
  - destruct (is_space c); [done|].
    destruct p; [destruct q|]; simplify_eq.
  - apply IH; [congruence | done].
Qed.

Lemma trimEnd_idemp s : trimEnd (trimEnd s) = trimEnd s.
Proof.
  induction s as [|c s IH]; [done|]. simpl.
  destruct (trimEnd s) as [|d r] eqn:E.
  - destruct (is_space c) eqn:Ec; [done|]. simpl. by rewrite Ec.
  - change (trimEnd (c :: d :: r)) with
      (match trimEnd (d :: r) with
       | [] => if is_space c then [] else [c]
       | r' => c :: r' end).
    by rewrite IH.
Qed.

Lemma trimEnd_trim s : trimEnd (trim s) = trim s.
Proof. apply trimEnd_idemp. Qed.

Lemma is_sub_not_main t : is_sub t = true -> is_main t = false.
Proof. unfold is_main, is_sub. intros ->. apply andb_false_r. Qed.

End StringFacts.

Section StoreFacts.

Lemma place_snoc ss s :
  place (ss ++ [s])
  = (layout ss ++ sec_objs (length (layout ss)) s,
     positions ss ++ [length (layout ss)]).
Proof. unfold layout, positions, place. by rewrite foldl_snoc. Qed.

Lemma layout_snoc ss s :
  layout (ss ++ [s]) = layout ss ++ sec_objs (length (layout ss)) s.
Proof. unfold layout at 1. by rewrite place_snoc. Qed.

Lemma positions_snoc ss s :
  positions (ss ++ [s]) = positions ss ++ [length (layout ss)].
Proof. unfold positions at 1. by rewrite place_snoc. Qed.

(** Reading a leaf object. *)
Lemma readout_leaf f pre x post :
  readout (S f) (pre ++ leaf_obj x :: post) (length pre) = Some (tree_of_leaf x).
Proof.
  cbn [readout]. unfold read. by rewrite list_lookup_middle.
Qed.

Lemma readout_leaves f pre xs post :
  mapM (readout (S f) (pre ++ map leaf_obj xs ++ post))
       (seq (length pre) (length xs))
  = Some (map tree_of_leaf xs).
Proof.
  revert pre. induction xs as [|x xs IH]; intros pre; [done|].
  cbn [length seq map]. rewrite mapM_Some. constructor.
  - apply readout_leaf.
  - apply mapM_Some.
    specialize (IH (pre ++ [leaf_obj x])).
    rewrite length_app, Nat.add_1_r in IH. cbn [length] in IH.
    by rewrite <- app_assoc in IH.
Qed.

(** Reading the section laid out at the end of [pre]. *)
Lemma readout_sec f pre s post :
  readout (S (S f)) (pre ++ sec_objs (length pre) s ++ post) (length pre)
  = Some (tree_of_sec s).
Proof.
  cbn [readout]. unfold read, sec_objs. cbn [app].
  rewrite list_lookup_middle by done. cbn [mbind option_bind subsections].
  pose proof (readout_leaves f (pre ++ [{|
      number := l_number (s_head s); title := l_title (s_head s);
      content := l_content (s_head s);
      subsections := Some (seq (S (length pre)) (length (s_subs s))) |}])
    (s_subs s) post) as H.
  rewrite length_app, Nat.add_1_r in H. cbn [length] in H.
  rewrite <- app_assoc in H. cbn [app] in H.
  cbn [readout read] in H. unfold read in H. rewrite H. done.
Qed.

Lemma readout_positions f ss extra :
  mapM (readout (S (S f)) (layout ss ++ extra)) (positions ss)
  = Some (map tree_of_sec ss).
Proof.
  revert extra. induction ss as [|s ss IH] using rev_ind; intros extra; [done|].
  rewrite positions_snoc, layout_snoc, map_app. apply mapM_Some.
  apply Forall2_app.
  - apply mapM_Some. rewrite <- app_assoc. apply IH.
  - constructor; [|constructor]. rewrite <- app_assoc. apply readout_sec.
Qed.

(** An object of the store can be read and overwritten in place. *)
Lemma read_middle (p q : heap) o : read (p ++ o :: q) (length p) = Some o.
Proof. unfold read. by rewrite list_lookup_middle. Qed.

Lemma write_middle (p q : heap) o o' :
  write (p ++ o :: q) (length p) o' = Some (p ++ o' :: q).
Proof.
  unfold write. rewrite length_app. simpl.
  case_decide; [|lia].
  f_equal. replace (length p) with (length p + 0) at 1 by lia.
  by rewrite insert_app_r.
Qed.

End StoreFacts.

(** * The loop over the store and the loop over values agree *)

Section Simulation.

Lemma view_snoc a c : a_cur a = Some c -> view a = a_done a ++ [close c].
Proof. unfold view. by intros ->. Qed.

Lemma view_mk done c n k :
  view {| a_done := done; a_cur := Some c; a_secNo := n; a_subNo := k |}
  = done ++ [close c].
Proof. done. Qed.

Lemma view_closed a : a_cur a = None -> view a = a_done a.
Proof. unfold view. intros ->. apply app_nil_r. Qed.

Lemma flush_positions st a : Inv st a -> flush st = positions (view a).
Proof.
  intros [_ Hsec Hc _ _ _]. unfold flush. rewrite Hc, Hsec.
  destruct (a_cur a) as [c|] eqn:E; simpl.
  - by rewrite (view_snoc a c E), positions_snoc.
  - by rewrite (view_closed a E).
Qed.

Lemma Inv_initial : Inv initial start.
Proof. by constructor. Qed.

Lemma loop_body_sim st a line :
  Inv st a -> exists st', loop_body st line = Some st' /\ Inv st' (step a line).
Proof.
  intros HI. pose proof (flush_positions st a HI) as Hfl.
  destruct HI as [Hs Hsec Hc Hsub Hn Hk].
  unfold loop_body, step. cbn zeta.
  destruct (is_main (trim line)) eqn:Emain;
    [|destruct (is_sub (trim line)) eqn:Esub;
      [|destruct (0 <? length (trim line)) eqn:Elen]].
  - (* "###": close the open section, allocate a new one *)
    unfold alloc. eexists; split; [reflexivity|].
    constructor; cbn [store sections currentSection currentSubsection
                      sectionNumber subsectionNumber a_done a_cur a_secNo a_subNo].
    + rewrite view_mk.
      rewrite layout_snoc, <- Hs, Hn. done.
    + exact Hfl.
    + simpl. by rewrite Hs.
    + done.
    + by rewrite Hn.
    + done.
  - (* "####" *)
    destruct (a_cur a) as [[hd subs]|] eqn:Ecur.
    + simpl in Hc. rewrite Hc.
      rewrite (view_snoc a _ Ecur), layout_snoc in Hs.
      unfold sec_objs, close in Hs. cbn [s_head s_subs fst snd] in Hs.
      rewrite Hs. rewrite read_middle. cbn [mbind option_bind].
      unfold alloc. rewrite <- app_assoc. cbn [app].
      rewrite read_middle. cbn [mbind option_bind].
      rewrite write_middle. cbn [mbind option_bind].
      eexists; split; [reflexivity|].
      constructor; cbn [store sections currentSection currentSubsection
                        sectionNumber subsectionNumber a_done a_cur a_secNo a_subNo
                        number title content subsections default].
      * rewrite view_mk.
        rewrite layout_snoc. unfold sec_objs, close.
        cbn [s_head s_subs fst snd].
        rewrite reverse_cons, map_app. cbn [map]. rewrite Hk.
        f_equal. f_equal. f_equal. f_equal. unfold id.
        rewrite !length_app. cbn [length]. rewrite length_map.
        rewrite Nat.add_1_r, seq_S. f_equal. f_equal. lia.
      * exact Hsec.
      * done.
      * f_equal. rewrite !length_app. cbn [length]. rewrite length_app. simpl. lia.
      * exact Hn.
      * by rewrite Hk.
    + simpl in Hc. rewrite Hc. exists st. split; [by destruct st|].
      constructor; rewrite ?Ecur; by try done.
  - (* content *)
    destruct (a_cur a) as [[hd [|x r]]|] eqn:Ecur.
    + simpl in Hc. rewrite Hsub, Hc.
      rewrite (view_snoc a _ Ecur), layout_snoc in Hs.
      unfold sec_objs, close in Hs. cbn [s_head s_subs fst snd reverse rev_append length map seq] in Hs.
      unfold append_content. rewrite Hs, read_middle. cbn [mbind option_bind].
      rewrite write_middle. cbn [mbind option_bind].
      eexists; split; [reflexivity|].
      constructor; cbn [store sections currentSection currentSubsection
                        sectionNumber subsectionNumber a_done a_cur a_secNo a_subNo
                        number title content subsections grow_open fst snd].
      * rewrite view_mk.
        rewrite layout_snoc. unfold sec_objs, close. simpl.
        by rewrite or_empty_id.
      * exact Hsec.
      * done.
      * done.
      * exact Hn.
      * exact Hk.
    + simpl in Hc. rewrite Hsub.
      rewrite (view_snoc a _ Ecur), layout_snoc in Hs.
      unfold sec_objs, close in Hs. cbn [s_head s_subs fst snd] in Hs.
      rewrite reverse_cons, map_app in Hs. cbn [map] in Hs.
      rewrite app_comm_cons, app_assoc in Hs.
      unfold append_content. rewrite Hs.
      rewrite length_app. cbn [length]. rewrite Nat.add_1_r. cbn [Nat.sub].
      rewrite Nat.sub_0_r.
      rewrite read_middle. cbn [mbind option_bind].
      rewrite write_middle. cbn [mbind option_bind].
      eexists; split; [reflexivity|].
      constructor; cbn [store sections currentSection currentSubsection
                        sectionNumber subsectionNumber a_done a_cur a_secNo a_subNo
                        number title content subsections grow_open fst snd].
      * rewrite view_mk.
        rewrite layout_snoc. unfold sec_objs, close. cbn [s_head s_subs fst snd].
        rewrite !reverse_cons, map_app, !length_app. cbn [map length].
        unfold leaf_obj, grow. cbn [number title content subsections
                                    l_number l_title l_content].
        by rewrite or_empty_id, <- !app_assoc.
      * exact Hsec.
      * done.
      * f_equal. rewrite !length_app. simpl. lia.
      * exact Hn.
      * exact Hk.
    + simpl in Hc. rewrite Hsub, Hc. exists st. split; [by destruct st|].
      constructor; rewrite ?Ecur; by try done.
  - (* blank *)
    exists st. split; [by destruct st|]. by constructor.
Qed.

Lemma loop_sim lines : forall st a,
  Inv st a -> exists st', loop st lines = Some st' /\ Inv st' (run a lines).
Proof.
  induction lines as [|l r IH]; intros st a HI; [by exists st|].
  destruct (loop_body_sim st a l HI) as (st1 & E1 & HI1).
  destruct (IH st1 (step a l) HI1) as (st2 & E2 & HI2).
  exists st2. split; [|exact HI2]. cbn [loop]. by rewrite E1.
Qed.

(** The value read out of the final store is the final store-free state. *)
Lemma parse_lines_run lines :
  parse_lines lines = Some (map tree_of_sec (view (run start lines))).
Proof.
  destruct (loop_sim lines initial start Inv_initial) as (st & E & HI).
  unfold parse_lines. rewrite E. cbn [mbind option_bind].
  rewrite (flush_positions st _ HI), (inv_store _ _ HI).
  destruct (view (run start lines)) as [|s ss _] using rev_ind; [done|].
  rewrite <- (app_nil_r (layout (ss ++ [s]))) at 2.
  rewrite layout_snoc at 1. rewrite length_app. cbn [sec_objs length].
  rewrite Nat.add_succ_r. apply readout_positions.
Qed.

End Simulation.

(** * What the loop computes, line by line *)

Section Denotation.

Lemma grow_nil x : grow x [] = x.
Proof. destruct x. unfold grow. simpl. by rewrite app_nil_r. Qed.

Lemma grow_open_nil c : grow_open c [] = c.
Proof.
  destruct c as [hd [|x r]]; unfold grow_open; simpl; by rewrite grow_nil.
Qed.

Lemma grow_grow x s1 s2 : grow (grow x s1) s2 = grow x (s1 ++ s2).
Proof. unfold grow. simpl. by rewrite app_assoc. Qed.

Lemma grow_open_grow_open c s1 s2 :
  grow_open (grow_open c s1) s2 = grow_open c (s1 ++ s2).
Proof.
  destruct c as [hd [|x r]]; unfold grow_open; simpl; by rewrite grow_grow.
Qed.

Lemma grow_open_number c s : l_number (grow_open c s).1 = l_number c.1.
Proof. by destruct c as [hd [|x r]]. Qed.

Lemma run_cons a l r : run a (l :: r) = run (step a l) r.
Proof. done. Qed.

Lemma run_app a pre post : run a (pre ++ post) = run (run a pre) post.
Proof. apply foldl_app. Qed.

(** The state after [lines]: the closed sections, the open one with what
    [lines] add to it, and the sections [lines] open. *)
Lemma view_run lines : forall a,
  view (run a lines)
  = a_done a
    ++ match a_cur a with
       | Some c => [complete c (a_subNo a) lines]
       | None => []
       end
    ++ secs_of (a_secNo a) lines.
Proof.
  induction lines as [|l r IH]; intros a.
  - cbn [run foldl secs_of]. rewrite app_nil_r. unfold view.
    destruct (a_cur a) as [c|]; [|done]. simpl. unfold complete, close.
    cbn [body subs_of]. by rewrite grow_open_nil, app_nil_r.
  - rewrite run_cons, IH. unfold step. cbn zeta. cbn [secs_of body subs_of complete].
    destruct (is_main (trim l)) eqn:Emain;
      [|destruct (is_sub (trim l)) eqn:Esub;
        [|destruct (0 <? length (trim l)) eqn:Elen]];
      cbn [a_done a_cur a_secNo a_subNo orb].
    + unfold view. rewrite <- !app_assoc. f_equal.
      destruct (a_cur a) as [c|]; cbn [fmap option_fmap option_map option_list app].
      * unfold complete. cbn [body subs_of]. rewrite Emain. cbn [orb].
        rewrite grow_open_nil, app_nil_r. done.
      * done.
    + destruct (a_cur a) as [[hd subs]|] eqn:Ecur;
        cbn [a_done a_cur a_secNo a_subNo]; [|by rewrite Ecur].
      f_equal. f_equal. unfold complete. cbn [body subs_of].
      rewrite Emain, Esub. cbn [orb]. rewrite grow_open_nil.
      unfold grow_open. cbn [fst snd grow l_number l_title l_content].
      rewrite reverse_cons, <- app_assoc. done.
    + destruct (a_cur a) as [c|] eqn:Ecur;
        cbn [a_done a_cur a_secNo a_subNo]; [|by rewrite Ecur].
      f_equal. f_equal. unfold complete. cbn [body subs_of].
      rewrite Emain, Esub, Elen. cbn [orb].
      rewrite !grow_open_grow_open, !grow_open_number. by rewrite <- !app_assoc.
    + destruct (a_cur a) as [c|]; [|done].
      f_equal. f_equal. f_equal. unfold complete. cbn [body subs_of].
      rewrite Emain, Esub, Elen. done.
Qed.

(** The result of the parser as a function of the lines. *)
Lemma parse_lines_secs_of lines :
  parse_lines lines = Some (map tree_of_sec (secs_of 1 lines)).
Proof. by rewrite parse_lines_run, view_run. Qed.

End Denotation.

(** * The result of [parseSOPResponse] *)

Section Result.

Context {any : Type}.
Implicit Types (env : Ambient) (text : jsstring) (input : SOPTextInput any).

Lemma parseSOPResponse_secs_of env text input :
  parseSOPResponse env text input
  = Some {| doc_title := in_title input;
            doc_documentNumber := documentNumber env;
            doc_version := lit "1.0";
            doc_effectiveDate := effectiveDate env;
            doc_sections := map tree_of_sec (secs_of 1 (split LF text)) |}.
Proof. unfold parseSOPResponse. by rewrite parse_lines_secs_of. Qed.

Lemma sections_secs_of env text input :
  doc_sections <$> parseSOPResponse env text input
  = Some (map tree_of_sec (secs_of 1 (split LF text))).
Proof. by rewrite parseSOPResponse_secs_of. Qed.

Lemma sections_parse_lines env text input :
  doc_sections <$> parseSOPResponse env text input = parse_lines (split LF text).
Proof. by rewrite sections_secs_of, parse_lines_secs_of. Qed.

Lemma sections_fmap_parse_lines {B} (f : list SectionTree -> B) env text input :
  (fun d => f (doc_sections d)) <$> parseSOPResponse env text input
  = f <$> parse_lines (split LF text).
Proof. by rewrite parseSOPResponse_secs_of, parse_lines_secs_of. Qed.

End Result.

Section Numbering.

Lemma secs_of_numbers lines : forall n,
  map (fun s => l_number (s_head s)) (secs_of n lines)
  = map String_of_nat (seq n (count_lines main_line lines)).
Proof.
  induction lines as [|l r IH]; intros n; [done|].
  cbn [secs_of count_lines]. unfold main_line at 1.
  destruct (is_main (trim l)); cbn [map seq Nat.add]; [f_equal|]; apply IH.
Qed.

Lemma subs_of_numbers secnum lines : forall k,
  map l_number (subs_of secnum k lines)
  = map (fun i => secnum ++ lit "." ++ String_of_nat i)
        (seq k (length (subs_of secnum k lines))).
Proof.
  induction lines as [|l r IH]; intros k; [done|].
  cbn [subs_of]. destruct (is_main (trim l)); [done|].
  destruct (is_sub (trim l)); [|apply IH].
  cbn [map length seq l_number]. f_equal. apply IH.
Qed.

Lemma secs_of_subs lines : forall n,
  Forall (fun s =>
            map l_number (s_subs s)
            = map (fun i => l_number (s_head s) ++ lit "." ++ String_of_nat i)
                  (seq 1 (length (s_subs s))))
         (secs_of n lines).
Proof.
  induction lines as [|l r IH]; intros n; [constructor|].
  cbn [secs_of]. destruct (is_main (trim l)); [|apply IH].
  constructor; [|apply IH]. cbn [s_subs s_head l_number]. apply subs_of_numbers.
Qed.

End Numbering.

(** * Lines seen in context *)

Section LinesInContext.

Lemma entries_tree_of_sec ss :
  entries (map tree_of_sec ss) = concat (map sec_entries ss).
Proof.
  unfold entries. rewrite map_map. f_equal. apply map_ext. intros s.
  unfold entries_of, sec_entries, tree_of_sec. cbn [tree_subsections default].
  f_equal. unfold id. rewrite map_map. done.
Qed.

Lemma sec_entries_app xs ys :
  concat (map sec_entries (xs ++ ys))
  = concat (map sec_entries xs) ++ concat (map sec_entries ys).
Proof. by rewrite map_app, concat_app. Qed.

Lemma line_kinds l :
  content_line l = true ->
  is_main (trim l) = false /\ is_sub (trim l) = false
  /\ (0 <? length (trim l)) = true.
Proof.
  unfold content_line. intros H.
  apply andb_prop in H as [H H3]. apply andb_prop in H as [H1 H2].
  apply negb_true_iff in H1, H2. done.
Qed.

(** Once a section is open one stays open; closed sections exist only
    when one is open. *)
Lemma step_cur_some a l : is_Some (a_cur a) -> is_Some (a_cur (step a l)).
Proof.
  intros [c Hc]. unfold step. cbn zeta. rewrite Hc.
  destruct (is_main (trim l)); [by eexists|].
  destruct (is_sub (trim l)); [destruct c; by eexists|].
  destruct (0 <? length (trim l)); [by eexists|]. rewrite Hc. by eexists.
Qed.

Lemma run_cur_some lines : forall a,
  is_Some (a_cur a) -> is_Some (a_cur (run a lines)).
Proof.
  induction lines as [|l r IH]; intros a H; [done|].
  rewrite run_cons. by apply IH, step_cur_some.
Qed.

Lemma run_main_seen lines : forall a,
  existsb main_line lines = true -> is_Some (a_cur (run a lines)).
Proof.
  induction lines as [|l r IH]; intros a H; [done|].
  rewrite run_cons. cbn [existsb] in H. apply orb_prop in H as [H|H].
  - apply run_cur_some. unfold step. cbn zeta. unfold main_line in H.
    rewrite H. by eexists.
  - by apply IH.
Qed.

Lemma step_done_nil a l :
  (a_cur a = None -> a_done a = []) ->
  a_cur (step a l) = None -> a_done (step a l) = [].
Proof.
  intros Ha. unfold step. cbn zeta.
  destruct (is_main (trim l)); [done|].
  destruct (a_cur a) as [[hd subs]|] eqn:E.
  - destruct (is_sub (trim l)); [done|].
    destruct (0 <? length (trim l)); [done|]. by rewrite E.
  - destruct (is_sub (trim l)), (0 <? length (trim l)); intros _; by apply Ha.
Qed.

Lemma run_done_nil lines : forall a,
  (a_cur a = None -> a_done a = []) ->
  a_cur (run a lines) = None -> a_done (run a lines) = [].
Proof.
  induction lines as [|l r IH]; intros a Ha; [done|].
  rewrite run_cons. by apply IH, step_done_nil.
Qed.

(** A content line read with no section open changes nothing. *)
Lemma run_content_closed a l post :
  content_line l = true -> a_cur a = None ->
  run a (l :: post) = run a post.
Proof.
  intros Hl Hc. destruct (line_kinds l Hl) as (E1 & E2 & E3).
  rewrite run_cons. unfold step. cbn zeta. by rewrite E1, E2, E3, Hc.
Qed.

(** A content line read with a section open goes to the last entry of the
    state, and nowhere else. *)
Lemma run_content_open a c l post :
  content_line l = true -> a_cur a = Some c ->
  exists A x c' B,
    concat (map sec_entries (view a)) = A ++ [x]
    /\ concat (map sec_entries (view (run a post)))
       = A ++ with_content x (e_content x ++ c') :: B
    /\ concat (map sec_entries (view (run a (l :: post))))
       = A ++ with_content x (e_content x ++ l ++ [LF] ++ c') :: B.
Proof.
  intros Hl Hc. destruct (line_kinds l Hl) as (E1 & E2 & E3).
  rewrite run_cons, !view_run. unfold step. cbn zeta.
  rewrite E1, E2, E3, Hc. cbn [a_done a_cur a_secNo a_subNo].
  rewrite (view_snoc a c Hc), !sec_entries_app.
  unfold complete. rewrite grow_open_grow_open, grow_open_number.
  destruct c as [hd [|y r]]; unfold grow_open, close;
    cbn [fst snd map concat sec_entries s_head s_subs app].
  - rewrite reverse_nil. cbn [map app].
    exists (concat (map sec_entries (a_done a))), (leaf_entry MainSection hd),
      (body post),
      (map (leaf_entry SubSection) (subs_of (l_number hd) (a_subNo a) post)
       ++ concat (map sec_entries (secs_of (a_secNo a) post))).
    rewrite !app_nil_r. repeat split.
    unfold with_content, leaf_entry, grow. simpl. by rewrite <- !app_assoc.
  - rewrite !reverse_cons, !map_app. cbn [map].
    exists (concat (map sec_entries (a_done a))
            ++ leaf_entry MainSection hd
               :: map (leaf_entry SubSection) (reverse r)),
      (leaf_entry SubSection y), (body post),
      (map (leaf_entry SubSection) (subs_of (l_number hd) (a_subNo a) post)
       ++ concat (map sec_entries (secs_of (a_secNo a) post))).
    rewrite !app_nil_r.
    unfold with_content, leaf_entry, grow. simpl.
    rewrite <- !app_assoc. simpl. repeat split; by rewrite <- ?app_assoc.
Qed.

(** A "####" line read with a section open adds one subsection entry
    after the entries already there. *)
Lemma run_sub_open a hd subs l post :
  is_sub (trim l) = true -> a_cur a = Some (hd, subs) ->
  concat (map sec_entries (view (run a (l :: post))))
  = concat (map sec_entries (view a))
    ++ {| e_rank := SubSection;
          e_number := l_number hd ++ lit "." ++ String_of_nat (a_subNo a);
          e_title := subsection_title (trim l);
          e_content := body post |}
       :: map (leaf_entry SubSection)
              (subs_of (l_number hd) (S (a_subNo a)) post)
          ++ concat (map sec_entries (secs_of (a_secNo a) post)).
Proof.
  intros E2 Hc. pose proof (is_sub_not_main _ E2) as E1.
  rewrite run_cons, !view_run. unfold step. cbn zeta.
  rewrite E1, E2, Hc. cbn [a_done a_cur a_secNo a_subNo].
  rewrite (view_snoc a _ Hc), !sec_entries_app.
  unfold complete, grow_open, close, sec_entries.
  cbn [fst snd map concat s_head s_subs app].
  rewrite !reverse_cons, !map_app, !app_nil_r. cbn [map].
  unfold leaf_entry at 3, grow. simpl. by rewrite <- !app_assoc.
Qed.

(** "####" lines do not show in the numbers and titles of the sections. *)
Lemma secs_of_skip_sub l post : forall pre n,
  is_sub (trim l) = true ->
  map (fun s => (l_number (s_head s), l_title (s_head s)))
      (secs_of n (pre ++ l :: post))
  = map (fun s => (l_number (s_head s), l_title (s_head s)))
        (secs_of n (pre ++ post)).
Proof.
  intros pre n E2. pose proof (is_sub_not_main _ E2) as E1. revert n.
  induction pre as [|p pre IH]; intros n; cbn [app secs_of].
  - by rewrite E1.
  - destruct (is_main (trim p)); [|apply IH].
    cbn [map s_head l_number l_title]. f_equal. apply IH.
Qed.

(** A "####" line before the first "###" line leaves no trace. *)
Lemma secs_of_orphan l post : forall pre n,
  is_sub (trim l) = true -> existsb main_line pre = false ->
  secs_of n (pre ++ l :: post) = secs_of n (pre ++ post).
Proof.
  intros pre n E2 Hpre. pose proof (is_sub_not_main _ E2) as E1. revert n.
  induction pre as [|p pre IH]; intros n; cbn [app secs_of].
  - by rewrite E1.
  - cbn [existsb] in Hpre. apply orb_false_elim in Hpre as [Hp Hpre].
    unfold main_line in Hp. rewrite Hp. by apply IH.
Qed.

(** The title of a line that starts with five "#". *)
Lemma subsection_title_five l r :
  trim l = lit "#####" ++ r -> subsection_title (trim l) = lit "#" ++ r.
Proof.
  intros E. rewrite E. unfold subsection_title.
  assert (replace re_h4 (lit "#####" ++ r) = lit "#" ++ r) as -> by done.
  assert (replace re_num_num (lit "#" ++ r) = lit "#" ++ r) as -> by done.
  assert (replace re_num_num_dot (lit "#" ++ r) = lit "#" ++ r) as -> by done.
  unfold trim at 1. change (trimStart (lit "#" ++ r)) with (lit "#" ++ r).
  apply (trimEnd_suffix (lit "####")); [|done].
  change (lit "####" ++ lit "#" ++ r) with (lit "#####" ++ r).
  rewrite <- E. apply trimEnd_trim.
Qed.

End LinesInContext.

(** * The claims *)

(** C1, as stated: two calls with the same arguments can return different
    documents, because the parser itself reads the clock and draws a random
    number. *)
Lemma C1_same_arguments_different_documents :
  parseSOPResponse Sample.november (lit "") (Sample.input "Audit")
  <> parseSOPResponse Sample.december (lit "") (Sample.input "Audit").
Proof. vm_compute. discriminate. Qed.

(** C1, amended: for every text and input descriptor, two calls return
    documents with the same sections, the same title and the same version;
    they differ at most in [documentNumber] and [effectiveDate], which are
    functions of the clock reading and the random draw made inside the
    parser. *)
Theorem C1_deterministic_up_to_clock_and_random :
  forall (any : Type) (env1 env2 : Ambient) (text : jsstring)
         (input : SOPTextInput any),
  exists secs,
    parseSOPResponse env1 text input
    = Some {| doc_title := in_title input;
              doc_documentNumber := documentNumber env1;
              doc_version := lit "1.0";
              doc_effectiveDate := effectiveDate env1;
              doc_sections := secs |}
    /\ parseSOPResponse env2 text input
       = Some {| doc_title := in_title input;
                 doc_documentNumber := documentNumber env2;
                 doc_version := lit "1.0";
                 doc_effectiveDate := effectiveDate env2;
                 doc_sections := secs |}.
Proof.
  intros. eexists. split; apply parseSOPResponse_secs_of.
Qed.

(** C2, as stated: with the descriptor held fixed, two calls on different
    texts can return different document numbers and effective dates,
    because both are made inside the parser from its own clock reading and
    random draw, not carried from the descriptor. *)
Lemma C2_fixed_descriptor_different_metadata :
  (fun d => (doc_documentNumber d, doc_effectiveDate d))
    <$> parseSOPResponse Sample.november (lit "### A") (Sample.input "Audit")
  <> (fun d => (doc_documentNumber d, doc_effectiveDate d))
       <$> parseSOPResponse Sample.december (lit "### B") (Sample.input "Audit").
Proof. vm_compute. discriminate. Qed.

(** C2, amended: none of the four fields is derived from the parsed text.
    The title is the descriptor's, the version is the constant "1.0", and
    the document number and effective date are made inside the parser from
    its clock reading and random draw; with the descriptor and those
    readings fixed, changing the text changes none of the four. *)
Theorem C2_metadata_independent_of_text :
  forall (any : Type) (env : Ambient) (input : SOPTextInput any)
         (text1 text2 : jsstring),
  exists d1 d2,
    parseSOPResponse env text1 input = Some d1
    /\ parseSOPResponse env text2 input = Some d2
    /\ doc_title d1 = in_title input /\ doc_title d2 = in_title input
    /\ doc_documentNumber d1 = documentNumber env
    /\ doc_documentNumber d2 = documentNumber env
    /\ doc_version d1 = lit "1.0" /\ doc_version d2 = lit "1.0"
    /\ doc_effectiveDate d1 = effectiveDate env
    /\ doc_effectiveDate d2 = effectiveDate env.
Proof.
  intros. do 2 eexists.
  split; [apply parseSOPResponse_secs_of|].
  split; [apply parseSOPResponse_secs_of|].
  repeat split.
Qed.

(** C3: the numbers of the sections of the result are "1", "2", ..., "N" in
    order, N being the number of lines whose trimmed form is a first-level
    heading. *)
Theorem C3_section_numbers :
  forall (any : Type) (env : Ambient) (text : jsstring)
         (input : SOPTextInput any),
    (fun d => map tree_number (doc_sections d))
      <$> parseSOPResponse env text input
    = Some (map String_of_nat
                (seq 1 (count_lines main_line (split LF text)))).
Proof.
  intros. rewrite parseSOPResponse_secs_of. cbn [fmap option_fmap option_map doc_sections].
  f_equal. rewrite <- secs_of_numbers, map_map. done.
Qed.

(** C4: in every section of the result, the numbers of the subsections are
    the section's number, then ".", then 1, 2, ..., k in order. *)
Theorem C4_subsection_numbers :
  forall (any : Type) (env : Ambient) (text : jsstring)
         (input : SOPTextInput any),
  exists d,
    parseSOPResponse env text input = Some d
    /\ Forall (fun s =>
                 exists subs,
                   tree_subsections s = Some subs
                   /\ map tree_number subs
                      = map (fun i => tree_number s ++ lit "." ++ String_of_nat i)
                            (seq 1 (length subs)))
              (doc_sections d).
Proof.
  intros. eexists. split; [apply parseSOPResponse_secs_of|].
  cbn [doc_sections]. apply Forall_forall. intros t Ht.
  apply in_map_iff in Ht.
  destruct Ht as (s & <- & Hs).
  pose proof (secs_of_subs (split LF text) 1) as HF.
  rewrite Forall_forall in HF. apply HF in Hs.
  exists (map tree_of_leaf (s_subs s)). split; [done|].
  rewrite map_map, length_map. exact Hs.
Qed.

(** C5 on a heading "#### 1.1. Title": the title keeps the period that ends
    the prefix. *)
Theorem C5_trailing_period_left_in_title :
  forall (any : Type) (env : Ambient) (input : SOPTextInput any),
    doc_sections <$> parseSOPResponse env Sample.numbered_sub input
    = Some [Node (lit "1") (lit "Scope") (lit "")
              (Some [Node (lit "1.1") (lit ". Title") (lit "body" ++ [LF]) None])].
Proof. intros. rewrite sections_parse_lines. by vm_compute. Qed.

(** C6: the scenario of the specification. *)
Theorem C6_scenario :
  forall (any : Type) (env : Ambient) (input : SOPTextInput any),
    doc_sections <$> parseSOPResponse env Sample.scenario input
    = Some [Node (lit "1") (lit "Purpose") (lit "This explains why." ++ [LF])
              (Some [Node (lit "1.1") (lit "Scope Note")
                       (lit "Limited to dept A." ++ [LF]) None]);
            Node (lit "2") (lit "Procedure")
              (lit "1. Step One - do thing" ++ [LF]) (Some [])].
Proof. intros. rewrite sections_parse_lines. by vm_compute. Qed.

(** C9: for every text the parser returns a document. *)
Theorem C9_total :
  forall (any : Type) (env : Ambient) (text : jsstring)
         (input : SOPTextInput any),
  exists d, parseSOPResponse env text input = Some d.
Proof. intros. eexists. apply parseSOPResponse_secs_of. Qed.

(** C7: a line whose trimmed form starts with "####" is not a first-level
    heading; the numbers and titles of the sections are those of the text
    without that line; and when no first-level heading precedes it, the
    whole result is that of the text without the line. *)
Theorem C7_sub_heading_opens_no_section :
  forall (any : Type) (env : Ambient) (text : jsstring)
         (input : SOPTextInput any) (pre : list jsstring) (l : jsstring)
         (post : list jsstring),
    split LF text = pre ++ l :: post ->
    startsWith (lit "####") (trim l) = true ->
    main_line l = false
    /\ (fun d => map (fun t => (tree_number t, tree_title t)) (doc_sections d))
         <$> parseSOPResponse env text input
       = map (fun t => (tree_number t, tree_title t))
           <$> parse_lines (pre ++ post)
    /\ (existsb main_line pre = false ->
        doc_sections <$> parseSOPResponse env text input
        = parse_lines (pre ++ post)).
Proof.
  intros any env text input pre l post Hsplit Hl.
  split; [exact (is_sub_not_main _ Hl)|]. split.
  - rewrite parseSOPResponse_secs_of, parse_lines_secs_of, Hsplit.
    cbn [fmap option_fmap option_map doc_sections]. f_equal.
    rewrite !map_map. apply (secs_of_skip_sub l post pre 1 Hl).
  - intros Hpre. rewrite sections_secs_of, parse_lines_secs_of, Hsplit.
    by rewrite (secs_of_orphan l post pre 1 Hl Hpre).
Qed.

Lemma C7_witness :
  split LF Sample.orphan = [] ++ lit "#### Orphan" :: [lit "text"; lit "### Later"]
  /\ startsWith (lit "####") (trim (lit "#### Orphan")) = true
  /\ doc_sections <$> parseSOPResponse Sample.november Sample.orphan (Sample.input "Doc")
     = parse_lines ([] ++ [lit "text"; lit "### Later"]).
Proof.
  split; [reflexivity|]. split; [reflexivity|].
  apply (C7_sub_heading_opens_no_section unit Sample.november Sample.orphan
           (Sample.input "Doc") [] (lit "#### Orphan")
           [lit "text"; lit "### Later"] eq_refl eq_refl).
  reflexivity.
Defined.

(** C8: a content line goes, with one newline after it, to the last entry
    of the result for the lines before it (the open subsection if there is
    one, else the open section), right after what that entry already holds;
    every other entry is the one of the text without the line. With no
    entry before it the line is dropped. *)
Theorem C8_content_line_goes_to_innermost_open_node :
  forall (any : Type) (env : Ambient) (text : jsstring)
         (input : SOPTextInput any) (pre : list jsstring) (l : jsstring)
         (post : list jsstring),
    split LF text = pre ++ l :: post ->
    content_line l = true ->
    exists before,
      parse_lines pre = Some before
      /\ (entries before = [] ->
          doc_sections <$> parseSOPResponse env text input
          = parse_lines (pre ++ post))
      /\ (forall A x,
            entries before = A ++ [x] ->
            exists c B,
              entries <$> parse_lines (pre ++ post)
              = Some (A ++ with_content x (e_content x ++ c) :: B)
              /\ (fun d => entries (doc_sections d))
                   <$> parseSOPResponse env text input
                 = Some (A ++ with_content x (e_content x ++ l ++ [LF] ++ c) :: B)).
Proof.
  intros any env text input pre l post Hsplit Hl.
  exists (map tree_of_sec (view (run start pre))).
  split; [apply parse_lines_run|].
  rewrite sections_parse_lines, sections_fmap_parse_lines.
  rewrite Hsplit, !parse_lines_run, !run_app.
  rewrite entries_tree_of_sec.
  destruct (a_cur (run start pre)) as [c|] eqn:Hc.
  - destruct (run_content_open _ c l post Hl Hc) as (A0 & x0 & c' & B & H1 & H2 & H3).
    split.
    + intros HE. rewrite H1 in HE. by destruct A0.
    + intros A x HE. rewrite H1 in HE. apply app_inj_tail in HE as [-> ->].
      exists c', B. cbn [fmap option_fmap option_map].
      rewrite !entries_tree_of_sec. by rewrite H2, H3.
  - rewrite (run_content_closed _ l post Hl Hc). split; [done|].
    intros A x HE. rewrite (view_closed _ Hc) in HE.
    rewrite (run_done_nil pre start (fun _ => eq_refl) Hc) in HE.
    by destruct A.
Qed.

Lemma C8_witness :
  split LF Sample.scenario
  = [lit "### Purpose"; lit "This explains why."; lit "#### Scope Note"]
    ++ lit "Limited to dept A."
       :: [lit "### Procedure"; lit "1. Step One - do thing"; lit ""]
  /\ content_line (lit "Limited to dept A.") = true
  /\ exists before,
       parse_lines [lit "### Purpose"; lit "This explains why."; lit "#### Scope Note"]
       = Some before
       /\ (entries before = [] ->
           doc_sections <$> parseSOPResponse Sample.november Sample.scenario
                              (Sample.input "Doc")
           = parse_lines ([lit "### Purpose"; lit "This explains why.";
                           lit "#### Scope Note"]
                          ++ [lit "### Procedure"; lit "1. Step One - do thing";
                              lit ""]))
       /\ (forall A x,
             entries before = A ++ [x] ->
             exists c B,
               entries <$> parse_lines
                 ([lit "### Purpose"; lit "This explains why.";
                   lit "#### Scope Note"]
                  ++ [lit "### Procedure"; lit "1. Step One - do thing"; lit ""])
               = Some (A ++ with_content x (e_content x ++ c) :: B)
               /\ (fun d => entries (doc_sections d))
                    <$> parseSOPResponse Sample.november Sample.scenario
                          (Sample.input "Doc")
                  = Some (A ++ with_content x
                                 (e_content x ++ lit "Limited to dept A."
                                  ++ [LF] ++ c) :: B)).
Proof.
  split; [reflexivity|]. split; [reflexivity|].
  apply (C8_content_line_goes_to_innermost_open_node unit Sample.november
           Sample.scenario (Sample.input "Doc")
           [lit "### Purpose"; lit "This explains why."; lit "#### Scope Note"]
           (lit "Limited to dept A.")
           [lit "### Procedure"; lit "1. Step One - do thing"; lit ""]
           eq_refl eq_refl).
Defined.

(** C10: a line whose trimmed form starts with five "#", read after a
    first-level heading, adds one subsection entry right after the entries
    of the lines before it, which are left as they are; its title is the
    trimmed line without its first four "#", so it starts with "#". *)
Theorem C10_five_hashes_make_a_subsection :
  forall (any : Type) (env : Ambient) (text : jsstring)
         (input : SOPTextInput any) (pre : list jsstring) (l : jsstring)
         (post : list jsstring) (r : jsstring),
    split LF text = pre ++ l :: post ->
    existsb main_line pre = true ->
    trim l = lit "#####" ++ r ->
    main_line l = false /\ content_line l = false
    /\ exists before num c B,
         parse_lines pre = Some before
         /\ (fun d => entries (doc_sections d))
              <$> parseSOPResponse env text input
            = Some (entries before
                    ++ {| e_rank := SubSection; e_number := num;
                          e_title := lit "#" ++ r; e_content := c |} :: B).
Proof.
  intros any env text input pre l post r Hsplit Hpre Hl.
  assert (is_sub (trim l) = true) as E2 by (by rewrite Hl).
  pose proof (is_sub_not_main _ E2) as E1.
  split; [exact E1|]. split; [unfold content_line; by rewrite E1, E2|].
  destruct (run_main_seen pre start Hpre) as [[hd subs] Hc].
  eexists (map tree_of_sec (view (run start pre))), _, _, _.
  split; [apply parse_lines_run|].
  rewrite sections_fmap_parse_lines, Hsplit, parse_lines_run, run_app.
  cbn [fmap option_fmap option_map]. rewrite !entries_tree_of_sec.
  rewrite (run_sub_open _ hd subs l post E2 Hc).
  by rewrite (subsection_title_five l r Hl).
Qed.

Lemma C10_witness :
  split LF Sample.deep
  = [lit "### Top"; lit "intro"] ++ lit "##### Deep" :: [lit "detail"]
  /\ existsb main_line [lit "### Top"; lit "intro"] = true
  /\ trim (lit "##### Deep") = lit "#####" ++ lit " Deep"
  /\ exists before num c B,
       parse_lines [lit "### Top"; lit "intro"] = Some before
       /\ (fun d => entries (doc_sections d))
            <$> parseSOPResponse Sample.november Sample.deep (Sample.input "Doc")
          = Some (entries before
                  ++ {| e_rank := SubSection; e_number := num;
                        e_title := lit "#" ++ lit " Deep"; e_content := c |} :: B).
Proof.
  split; [reflexivity|]. split; [reflexivity|]. split; [reflexivity|].
  apply (C10_five_hashes_make_a_subsection unit Sample.november Sample.deep
           (Sample.input "Doc") [lit "### Top"; lit "intro"] (lit "##### Deep")
           [lit "detail"] (lit " Deep") eq_refl eq_refl eq_refl).
Defined.

(** * Further properties of the parser *)

Section MoreStringFacts.

Lemma trimStart_head s c r : trimStart s = c :: r -> is_space c = false.
Proof.
  induction s as [|x s IH]; [done|]. simpl.
  destruct (is_space x) eqn:E; [exact IH|]. by intros [= <- _].
Qed.

Lemma trimEnd_head c r :
  is_space c = false -> exists r', trimEnd (c :: r) = c :: r'.
Proof.
  intros Hc. simpl. destruct (trimEnd r) as [|d r'].
  - rewrite Hc. by exists [].
  - by exists (d :: r').
Qed.

Lemma trim_idemp s : trim (trim s) = trim s.
Proof.
  unfold trim. destruct (trimStart s) as [|c r] eqn:E; [done|].
  pose proof (trimStart_head _ _ _ E) as Hc.
  destruct (trimEnd_head c r Hc) as [r' Hr']. rewrite Hr'.
  cbn [trimStart]. rewrite Hc, <- Hr'. apply trimEnd_idemp.
Qed.

Lemma trimEnd_app_r p t : trimEnd t = t -> t <> [] -> trimEnd (p ++ t) = p ++ t.
Proof.
  intros Ht Hne. induction p as [|c p IH]; [done|].
  cbn [app trimEnd]. rewrite IH. destruct (p ++ t) eqn:E; [|done].
  by destruct p, t.
Qed.

Lemma trimEnd_of_trimmed t : trim t = t -> trimEnd t = t.
Proof. intros H. rewrite <- H. apply trimEnd_trim. Qed.

Lemma trimStart_of_trimmed t : trim t = t -> trimStart t = t.
Proof.
  intros H. destruct t as [|c r]; [done|].
  destruct (trimStart (c :: r)) as [|d r'] eqn:E.
  - by rewrite <- H; unfold trim; rewrite E.
  - pose proof (trimStart_head _ _ _ E) as Hd.
    assert (d = c) as ->.
    { unfold trim in H. rewrite E in H.
      destruct (trimEnd_head d r' Hd) as [r2 H2]. rewrite H2 in H. congruence. }
    simpl in E. by rewrite Hd in E.
Qed.

End MoreStringFacts.

Section Structure.

Lemma secs_of_length lines : forall n,
  length (secs_of n lines) = count_lines main_line lines.
Proof.
  intros n. pose proof (secs_of_numbers lines n) as H.
  apply (f_equal length) in H. by rewrite !length_map, length_seq in H.
Qed.

Lemma secs_of_nil_iff lines n :
  secs_of n lines = [] <-> existsb main_line lines = false.
Proof.
  revert n. induction lines as [|l r IH]; intros n; [done|].
  cbn [secs_of existsb]. unfold main_line at 1.
  destruct (is_main (trim l)); [done|]. apply IH.
Qed.

Lemma secs_of_skip_prefix pre rest : forall n,
  existsb main_line pre = false -> secs_of n (pre ++ rest) = secs_of n rest.
Proof.
  induction pre as [|p pre IH]; intros n H; [done|].
  cbn [existsb] in H. apply orb_false_elim in H as [Hp H].
  cbn [app secs_of]. unfold main_line in Hp. rewrite Hp. by apply IH.
Qed.

(** Ranks and titles of the entries against the heading lines. *)
Lemma outline_open lines : forall secnum k n,
  map (fun e => (e_rank e, e_title e))
      (map (leaf_entry SubSection) (subs_of secnum k lines)
       ++ concat (map sec_entries (secs_of n lines)))
  = map outline_of (List.filter heading_line lines).
Proof.
  induction lines as [|l r IH]; intros secnum k n; [done|].
  cbn [subs_of secs_of List.filter]. unfold heading_line at 1.
  destruct (is_main (trim l)) eqn:E1; [|destruct (is_sub (trim l)) eqn:E2];
    cbn [orb map app concat sec_entries s_head s_subs].
  - unfold outline_of at 1. rewrite E1.
    cbn [leaf_entry e_rank e_title l_title]. f_equal. apply IH.
  - unfold outline_of at 1. rewrite E1.
    cbn [leaf_entry e_rank e_title l_title]. f_equal. apply IH.
  - apply IH.
Qed.

Lemma outline_closed lines : forall n,
  map (fun e => (e_rank e, e_title e)) (concat (map sec_entries (secs_of n lines)))
  = map outline_of (List.filter heading_line (drop_until main_line lines)).
Proof.
  induction lines as [|l r IH]; intros n; [done|].
  cbn [secs_of drop_until]. unfold main_line at 1.
  destruct (is_main (trim l)) eqn:E1; [|apply IH].
  cbn [List.filter]. unfold heading_line at 1. rewrite E1.
  cbn [orb map concat sec_entries s_head s_subs app].
  unfold outline_of at 1. rewrite E1.
  cbn [leaf_entry e_rank e_title l_title]. f_equal. apply outline_open.
Qed.

(** The text held by the entries against the content lines. *)
Lemma contents_open lines : forall secnum k n,
  body lines
  ++ concat (map e_content
               (map (leaf_entry SubSection) (subs_of secnum k lines)
                ++ concat (map sec_entries (secs_of n lines))))
  = concat (map with_newline (List.filter content_line lines)).
Proof.
  induction lines as [|l r IH]; intros secnum k n; [done|].
  cbn [body subs_of secs_of List.filter]. unfold content_line at 1.
  destruct (is_main (trim l)) eqn:E1;
    [|destruct (is_sub (trim l)) eqn:E2;
      [|destruct (0 <? length (trim l)) eqn:E3]];
    cbn [orb negb andb map app concat sec_entries s_head s_subs
         leaf_entry e_content l_content].
  - apply IH.
  - apply IH.
  - unfold with_newline at 1. rewrite <- !app_assoc. f_equal.
    cbn [app]. f_equal. apply IH.
  - apply IH.
Qed.

Lemma contents_closed lines : forall n,
  concat (map e_content (concat (map sec_entries (secs_of n lines))))
  = concat (map with_newline
              (List.filter content_line (drop_until main_line lines))).
Proof.
  induction lines as [|l r IH]; intros n; [done|].
  cbn [secs_of drop_until]. unfold main_line at 1.
  destruct (is_main (trim l)) eqn:E1; [|apply IH].
  cbn [List.filter]. unfold content_line at 1. rewrite E1.
  cbn [negb andb map concat sec_entries s_head s_subs app leaf_entry
       e_content l_content].
  apply contents_open.
Qed.

Lemma outline_of_trimmed l : trim (outline_of l).2 = (outline_of l).2.
Proof.
  unfold outline_of, section_title, subsection_title.
  destruct (is_main (trim l)); apply trim_idemp.
Qed.

End Structure.

(** X1: the result has no section exactly when no line of the text is a
    first-level heading; the empty text, text without headings and text
    with only "####" headings all give an empty section list. *)
Theorem X1_no_sections_iff_no_main_heading :
  forall (any : Type) (env : Ambient) (text : jsstring)
         (input : SOPTextInput any),
    doc_sections <$> parseSOPResponse env text input = Some []
    <-> existsb main_line (split LF text) = false.
Proof.
  intros. rewrite sections_secs_of. rewrite <- (secs_of_nil_iff _ 1). split.
  - intros [= H]. by destruct (secs_of 1 (split LF text)).
  - by intros ->.
Qed.

(** X2: whatever precedes the first first-level heading is ignored: the
    result is that of the lines from there on. *)
Theorem X2_lines_before_first_heading_ignored :
  forall (any : Type) (env : Ambient) (text : jsstring)
         (input : SOPTextInput any) (pre rest : list jsstring),
    split LF text = pre ++ rest ->
    existsb main_line pre = false ->
    doc_sections <$> parseSOPResponse env text input = parse_lines rest.
Proof.
  intros any env text input pre rest Hsplit Hpre.
  rewrite sections_secs_of, parse_lines_secs_of, Hsplit.
  by rewrite secs_of_skip_prefix.
Qed.

Lemma X2_witness :
  split LF Sample.orphan = [lit "#### Orphan"; lit "text"] ++ [lit "### Later"]
  /\ existsb main_line [lit "#### Orphan"; lit "text"] = false
  /\ doc_sections <$> parseSOPResponse Sample.november Sample.orphan
                        (Sample.input "Doc")
     = parse_lines [lit "### Later"].
Proof.
  split; [reflexivity|]. split; [reflexivity|].
  apply (X2_lines_before_first_heading_ignored unit Sample.november
           Sample.orphan (Sample.input "Doc")
           [lit "#### Orphan"; lit "text"] [lit "### Later"] eq_refl eq_refl).
Defined.

(** X3: in document order, the ranks and titles of the nodes are those of
    the heading lines of the text, in their order, from the first
    first-level heading on. *)
Theorem X3_outline_follows_heading_lines :
  forall (any : Type) (env : Ambient) (text : jsstring)
         (input : SOPTextInput any),
    (fun d => map (fun e => (e_rank e, e_title e)) (entries (doc_sections d)))
      <$> parseSOPResponse env text input
    = Some (map outline_of
              (List.filter heading_line (drop_until main_line (split LF text)))).
Proof.
  intros. rewrite parseSOPResponse_secs_of.
  cbn [fmap option_fmap option_map doc_sections].
  by rewrite entries_tree_of_sec, outline_closed.
Qed.

(** X4: the contents of the nodes, put end to end in document order, are
    the content lines of the text from the first first-level heading on,
    in their order, each followed by one newline: none is lost, repeated
    or moved. *)
Theorem X4_content_lines_conserved :
  forall (any : Type) (env : Ambient) (text : jsstring)
         (input : SOPTextInput any),
    (fun d => concat (map e_content (entries (doc_sections d))))
      <$> parseSOPResponse env text input
    = Some (concat (map with_newline
                      (List.filter content_line
                         (drop_until main_line (split LF text))))).
Proof.
  intros. rewrite parseSOPResponse_secs_of.
  cbn [fmap option_fmap option_map doc_sections].
  by rewrite entries_tree_of_sec, contents_closed.
Qed.

(** X5: every title of the result is trimmed: trimming it again changes
    nothing. *)
Theorem X5_titles_are_trimmed :
  forall (any : Type) (env : Ambient) (text : jsstring)
         (input : SOPTextInput any),
  exists d,
    parseSOPResponse env text input = Some d
    /\ Forall (fun e => trim (e_title e) = e_title e) (entries (doc_sections d)).
Proof.
  intros. eexists. split; [apply parseSOPResponse_secs_of|].
  cbn [doc_sections]. rewrite entries_tree_of_sec.
  pose proof (outline_closed (split LF text) 1) as H.
  set (es := concat (map sec_entries (secs_of 1 (split LF text)))) in *.
  clearbody es. revert H.
  generalize (List.filter heading_line (drop_until main_line (split LF text))).
  induction es as [|e es IH]; intros ls H; [constructor|].
  destruct ls as [|l ls]; [done|].
  cbn [map] in H. injection H as Hhd Hrest. constructor; [|by eapply IH].
  pose proof (outline_of_trimmed l) as Hl. by rewrite <- Hhd in Hl.
Qed.

(** X6: the result is exactly two levels deep: every section carries a
    subsection list, and no subsection carries one. *)
Theorem X6_two_levels :
  forall (any : Type) (env : Ambient) (text : jsstring)
         (input : SOPTextInput any),
  exists d,
    parseSOPResponse env text input = Some d
    /\ Forall (fun s =>
                 exists subs,
                   tree_subsections s = Some subs
                   /\ Forall (fun u => tree_subsections u = None) subs)
              (doc_sections d).
Proof.
  intros. eexists. split; [apply parseSOPResponse_secs_of|].
  cbn [doc_sections]. apply Forall_forall. intros t Ht.
  apply in_map_iff in Ht. destruct Ht as (s & <- & _).
  exists (map tree_of_leaf (s_subs s)). split; [done|].
  apply Forall_forall. intros u Hu. apply in_map_iff in Hu.
  by destruct Hu as (x & <- & _).
Qed.

Section Composition.

Lemma step_blank a l : trim l = [] -> step a l = a.
Proof. intros H. unfold step. by rewrite H. Qed.

Lemma step_heading_trim a l1 l2 :
  trim l1 = trim l2 -> heading_line l1 = true -> step a l1 = step a l2.
Proof.
  unfold heading_line, step. intros <- H. cbn zeta.
  destruct (is_main (trim l1)); [done|]. cbn [orb] in H. by rewrite H.
Qed.

Lemma body_app_main r h post :
  main_line h = true -> body (r ++ h :: post) = body r.
Proof.
  unfold main_line. intros Hh. induction r as [|l r IH]; cbn [app body].
  - by rewrite Hh.
  - by rewrite IH.
Qed.

Lemma subs_of_app_main secnum r h post : forall k,
  main_line h = true -> subs_of secnum k (r ++ h :: post) = subs_of secnum k r.
Proof.
  intros k Hh. revert k. induction r as [|l r IH]; intros k; cbn [app subs_of].
  - unfold main_line in Hh. by rewrite Hh.
  - by rewrite !IH, body_app_main.
Qed.

Lemma secs_of_main n l r :
  is_main (trim l) = true ->
  secs_of n (l :: r)
  = {| s_head := {| l_number := String_of_nat n;
                    l_title := section_title (trim l);
                    l_content := body r |};
       s_subs := subs_of (String_of_nat n) 1 r |} :: secs_of (S n) r.
Proof. intros H. cbn [secs_of]. by rewrite H. Qed.

Lemma secs_of_other n l r :
  is_main (trim l) = false -> secs_of n (l :: r) = secs_of n r.
Proof. intros H. cbn [secs_of]. by rewrite H. Qed.

(** A "###" line closes the sections opened before it. *)
Lemma secs_of_app_main pre h post : forall n,
  main_line h = true ->
  secs_of n (pre ++ h :: post)
  = secs_of n pre ++ secs_of (n + count_lines main_line pre) (h :: post).
Proof.
  intros n Hh. revert n. induction pre as [|l r IH]; intros n.
  - cbn [app count_lines]. by rewrite Nat.add_0_r.
  - cbn [app count_lines].
    destruct (is_main (trim l)) eqn:E;
      assert (main_line l = is_main (trim l)) as -> by done; rewrite E.
    + rewrite (secs_of_main n l (r ++ h :: post) E), (secs_of_main n l r E).
      rewrite IH, body_app_main, subs_of_app_main by done.
      cbn [app]. do 2 f_equal. f_equal. lia.
    + rewrite (secs_of_other n l (r ++ h :: post) E), (secs_of_other n l r E).
      by rewrite IH.
Qed.

(** Numbers apart, the nodes do not depend on where the numbering starts. *)
Lemma subs_of_unnumbered lines : forall s k s' k',
  map unnumbered (map (leaf_entry SubSection) (subs_of s k lines))
  = map unnumbered (map (leaf_entry SubSection) (subs_of s' k' lines)).
Proof.
  induction lines as [|l r IH]; intros s k s' k'; [done|].
  cbn [subs_of]. destruct (is_main (trim l)); [done|].
  destruct (is_sub (trim l)); [|apply IH].
  cbn [map]. f_equal. apply IH.
Qed.

Lemma sec_entries_mk hd subs :
  sec_entries {| s_head := hd; s_subs := subs |}
  = leaf_entry MainSection hd :: map (leaf_entry SubSection) subs.
Proof. done. Qed.

Lemma secs_of_unnumbered lines : forall n m,
  map unnumbered (concat (map sec_entries (secs_of n lines)))
  = map unnumbered (concat (map sec_entries (secs_of m lines))).
Proof.
  induction lines as [|l r IH]; intros n m; [done|].
  cbn [secs_of]. destruct (is_main (trim l)); [|apply IH].
  cbn [map concat]. rewrite !map_app, !sec_entries_mk. cbn [map].
  rewrite (subs_of_unnumbered r (String_of_nat n) 1 (String_of_nat m) 1).
  by rewrite (IH (S n) (S m)).
Qed.

End Composition.

(** X7: a blank line (empty once trimmed) has no effect: the result is
    that of the text without it. *)
Theorem X7_blank_lines_ignored :
  forall (any : Type) (env : Ambient) (text : jsstring)
         (input : SOPTextInput any) (pre : list jsstring) (l : jsstring)
         (post : list jsstring),
    split LF text = pre ++ l :: post ->
    trim l = [] ->
    doc_sections <$> parseSOPResponse env text input = parse_lines (pre ++ post).
Proof.
  intros any env text input pre l post Hsplit Hl.
  rewrite sections_parse_lines, Hsplit, !parse_lines_run, !run_app, run_cons.
  by rewrite step_blank.
Qed.

Lemma X7_witness :
  split LF Sample.scenario
  = [lit "### Purpose"; lit "This explains why."; lit "#### Scope Note";
     lit "Limited to dept A."; lit "### Procedure"; lit "1. Step One - do thing"]
    ++ lit "" :: []
  /\ trim (lit "") = []
  /\ doc_sections <$> parseSOPResponse Sample.november Sample.scenario
                        (Sample.input "Doc")
     = parse_lines
         ([lit "### Purpose"; lit "This explains why."; lit "#### Scope Note";
           lit "Limited to dept A."; lit "### Procedure";
           lit "1. Step One - do thing"] ++ []).
Proof.
  split; [reflexivity|]. split; [reflexivity|].
  apply (X7_blank_lines_ignored unit Sample.november Sample.scenario
           (Sample.input "Doc")
           [lit "### Purpose"; lit "This explains why."; lit "#### Scope Note";
            lit "Limited to dept A."; lit "### Procedure";
            lit "1. Step One - do thing"] (lit "") [] eq_refl eq_refl).
Defined.

(** X8: only the trimmed form of a heading line matters: two texts that
    differ in the white space around one heading line give the same
    sections. *)
Theorem X8_space_around_heading_irrelevant :
  forall (any : Type) (env : Ambient) (text1 text2 : jsstring)
         (input : SOPTextInput any) (pre : list jsstring) (l1 l2 : jsstring)
         (post : list jsstring),
    split LF text1 = pre ++ l1 :: post ->
    split LF text2 = pre ++ l2 :: post ->
    heading_line l1 = true ->
    trim l1 = trim l2 ->
    doc_sections <$> parseSOPResponse env text1 input
    = doc_sections <$> parseSOPResponse env text2 input.
Proof.
  intros any env text1 text2 input pre l1 l2 post H1 H2 Hh Ht.
  rewrite !sections_parse_lines, H1, H2, !parse_lines_run, !run_app, !run_cons.
  by rewrite (step_heading_trim _ l1 l2 Ht Hh).
Qed.

Lemma X8_witness :
  split LF (lit "intro
### Top
body") = [lit "intro"] ++ lit "### Top" :: [lit "body"]
  /\ split LF (lit "intro
    ### Top   
body") = [lit "intro"] ++ lit "    ### Top   " :: [lit "body"]
  /\ heading_line (lit "### Top") = true
  /\ trim (lit "### Top") = trim (lit "    ### Top   ")
  /\ doc_sections <$> parseSOPResponse Sample.november (lit "intro
### Top
body") (Sample.input "Doc")
     = doc_sections <$> parseSOPResponse Sample.november (lit "intro
    ### Top   
body") (Sample.input "Doc").
Proof.
  split; [reflexivity|]. split; [reflexivity|].
  split; [reflexivity|]. split; [reflexivity|].
  apply (X8_space_around_heading_irrelevant unit Sample.november
           (lit "intro
### Top
body") (lit "intro
    ### Top   
body") (Sample.input "Doc") [lit "intro"] (lit "### Top")
           (lit "    ### Top   ") [lit "body"] eq_refl eq_refl eq_refl eq_refl).
Defined.

(** X9: a first-level heading closes what precedes it: the result is the
    sections of the lines before it, followed by the sections of the lines
    from it on, which keep their titles, contents and nesting and are
    numbered on from where the first part stops. *)
Theorem X9_parse_by_parts :
  forall (any : Type) (env : Ambient) (text : jsstring)
         (input : SOPTextInput any) (pre : list jsstring) (h : jsstring)
         (post : list jsstring),
    split LF text = pre ++ h :: post ->
    main_line h = true ->
    exists before rest after,
      parse_lines pre = Some before
      /\ parse_lines (h :: post) = Some rest
      /\ doc_sections <$> parseSOPResponse env text input = Some (before ++ after)
      /\ map unnumbered (entries after) = map unnumbered (entries rest)
      /\ map tree_number after
         = map String_of_nat (seq (S (length before)) (length rest)).
Proof.
  intros any env text input pre h post Hsplit Hh.
  exists (map tree_of_sec (secs_of 1 pre)),
    (map tree_of_sec (secs_of 1 (h :: post))),
    (map tree_of_sec (secs_of (1 + count_lines main_line pre) (h :: post))).
  split; [apply parse_lines_secs_of|]. split; [apply parse_lines_secs_of|].
  split; [|split].
  - rewrite sections_secs_of, Hsplit, secs_of_app_main by done.
    by rewrite map_app.
  - rewrite !entries_tree_of_sec. apply secs_of_unnumbered.
  - rewrite !length_map, !secs_of_length, map_map.
    apply (secs_of_numbers (h :: post) (1 + count_lines main_line pre)).
Qed.

Lemma X9_witness :
  split LF Sample.scenario
  = [lit "### Purpose"; lit "This explains why."; lit "#### Scope Note";
     lit "Limited to dept A."]
    ++ lit "### Procedure" :: [lit "1. Step One - do thing"; lit ""]
  /\ main_line (lit "### Procedure") = true
  /\ exists before rest after,
       parse_lines [lit "### Purpose"; lit "This explains why.";
                    lit "#### Scope Note"; lit "Limited to dept A."]
       = Some before
       /\ parse_lines (lit "### Procedure"
                       :: [lit "1. Step One - do thing"; lit ""]) = Some rest
       /\ doc_sections <$> parseSOPResponse Sample.november Sample.scenario
                             (Sample.input "Doc")
          = Some (before ++ after)
       /\ map unnumbered (entries after) = map unnumbered (entries rest)
       /\ map tree_number after
          = map String_of_nat (seq (S (length before)) (length rest)).
Proof.
  split; [reflexivity|]. split; [reflexivity|].
  apply (X9_parse_by_parts unit Sample.november Sample.scenario
           (Sample.input "Doc")
           [lit "### Purpose"; lit "This explains why."; lit "#### Scope Note";
            lit "Limited to dept A."]
           (lit "### Procedure") [lit "1. Step One - do thing"; lit ""]
           eq_refl eq_refl).
Defined.

(** * Numbering prefixes in headings *)

Section Prefixes.

Lemma is_digit_not_space c : is_digit c = true -> is_space c = false.
Proof.
  unfold is_digit, is_space. intros H.
  apply andb_prop in H as [H1 H2]. apply N.leb_le in H1, H2.
  repeat apply orb_false_intro;
    first [ apply N.eqb_neq; lia
          | apply andb_false_iff; right; apply N.leb_gt; lia
          | apply andb_false_iff; left; apply N.leb_gt; lia ].
Qed.


Lemma is_space_not_digit c : is_space c = true -> is_digit c = false.
Proof.
  intros H. destruct (is_digit c) eqn:E; [|done].
  apply is_digit_not_space in E. congruence.
Qed.

Lemma trimStart_spaces ws rest :
  forallb is_space ws = true -> trimStart (ws ++ rest) = trimStart rest.
Proof.
  induction ws as [|c ws IH]; [done|]. cbn [forallb app trimStart].
  intros H. apply andb_prop in H as [-> H]. by apply IH.
Qed.

(** [\s*] at the end of a pattern takes all the white space there is. *)
Lemma star_space_end s : star is_space (exec []) s = Some (trimStart s).
Proof.
  induction s as [|x s IH]; [done|]. cbn [star trimStart].
  destruct (is_space x); [by rewrite IH|done].
Qed.

(** A greedy quantifier runs through a whole run of its class when the
    rest of the pattern matches after it. *)
Lemma star_run cls k run rest r :
  forallb cls run = true ->
  star cls k rest = Some r -> star cls k (run ++ rest) = Some r.
Proof.
  intros Hrun Hrest. induction run as [|x run IH]; [done|].
  cbn [forallb] in Hrun. apply andb_prop in Hrun as [Hx Hrun].
  cbn [app star]. by rewrite Hx, IH.
Qed.

Lemma star_stop cls k c rest : cls c = false -> star cls k (c :: rest) = k (c :: rest).
Proof. intros H. cbn [star]. by rewrite H. Qed.



Lemma exec_unit c re x s :
  exec (Unit c :: re) (x :: s) = if (x =? c)%N then exec re s else None.
Proof. done. Qed.

Lemma replace_no_digit re s :
  starts_with_digit s = false -> replace (Plus is_digit :: re) s = s.
Proof.
  unfold replace. destruct s as [|c s]; [done|]. cbn [starts_with_digit exec].
  by intros ->.
Qed.



Lemma replace_num_num_other s :
  starts_with_digit s = false -> replace re_num_num s = s.
Proof. apply replace_no_digit. Qed.

Lemma replace_num_num_dot_other s :
  starts_with_digit s = false -> replace re_num_num_dot s = s.
Proof. apply replace_no_digit. Qed.


Lemma replace_h4 ws rest :
  forallb is_space ws = true -> trimStart rest = rest ->
  replace re_h4 (lit "####" ++ ws ++ rest) = rest.
Proof.
  intros Hws Hrest. unfold replace, re_h4.
  change (exec [Unit hash; Unit hash; Unit hash; Unit hash; Star is_space]
            (lit "####" ++ ws ++ rest))
    with (star is_space (exec []) (ws ++ rest)).
  by rewrite star_space_end, trimStart_spaces, Hrest.
Qed.




Lemma replace_num_num d n e m ws t :
  forallb is_digit (d :: n) = true -> forallb is_digit (e :: m) = true ->
  forallb is_space ws = true -> trimStart t = t -> starts_with_digit t = false ->
  replace re_num_num ((d :: n) ++ dot :: (e :: m) ++ ws ++ t) = t.
Proof.
  intros Hn Hm Hws Ht Htd. cbn [forallb] in Hn, Hm.
  apply andb_prop in Hn as [Hd Hn]. apply andb_prop in Hm as [He Hm].
  unfold replace, re_num_num. cbn [app exec]. rewrite Hd.
  rewrite (star_run is_digit _ n (dot :: e :: m ++ ws ++ t) t Hn); [done|].
  rewrite star_stop by done. cbn [exec]. rewrite N.eqb_refl, He.
  apply (star_run is_digit _ m (ws ++ t) t Hm).
  destruct ws as [|c ws].
  - destruct t as [|x t]; [done|]. cbn [app starts_with_digit] in *.
    rewrite star_stop by done. cbn [exec].
    by rewrite star_space_end, Ht.
  - cbn [forallb] in Hws. apply andb_prop in Hws as [Hc Hws]. cbn [app].
    rewrite star_stop by (by apply is_space_not_digit). cbn [exec].
    rewrite star_space_end. cbn [trimStart]. rewrite Hc.
    by rewrite trimStart_spaces, Ht.
Qed.

End Prefixes.



(** X11: a second-level heading "####", white space, then either nothing
    or a two-level number "N.M" and optional white space, before a title
    that is trimmed and does not start with a digit, gets exactly that
    title. *)
Theorem X11_subsection_title_shapes :
  forall (ws : jsstring) (d : char) (n : jsstring) (e : char) (m ws' t : jsstring),
    forallb is_space ws = true ->
    forallb is_digit (d :: n) = true ->
    forallb is_digit (e :: m) = true ->
    forallb is_space ws' = true ->
    trim t = t ->
    starts_with_digit t = false ->
    subsection_title (lit "####" ++ ws ++ t) = t
    /\ subsection_title
         (lit "####" ++ ws ++ (d :: n) ++ dot :: (e :: m) ++ ws' ++ t) = t.
Proof.
  intros ws d n e m ws' t Hws Hn Hm Hws' Ht Htd.
  pose proof (trimStart_of_trimmed t Ht) as Hts.
  assert (is_digit d = true) as Hd
    by (cbn [forallb] in Hn; by apply andb_prop in Hn as [? _]).
  pose proof (is_digit_not_space d Hd) as Hds.
  unfold subsection_title. split.
  - rewrite replace_h4 by done.
    by rewrite replace_num_num_other, replace_num_num_dot_other.
  - rewrite replace_h4 by (done || (cbn [app trimStart]; by rewrite Hds)).
    rewrite replace_num_num by done. by rewrite replace_num_num_dot_other.
Qed.

Lemma X11_witness :
  forallb is_space (lit " ") = true
  /\ forallb is_digit (lit "1") = true
  /\ forallb is_digit (lit "10") = true
  /\ forallb is_space (lit " ") = true
  /\ trim (lit "Scope Note") = lit "Scope Note"
  /\ starts_with_digit (lit "Scope Note") = false
  /\ subsection_title (lit "#### Scope Note") = lit "Scope Note"
  /\ subsection_title (lit "#### 1.10 Scope Note") = lit "Scope Note".
Proof.
  do 6 (split; [reflexivity|]).
  apply (X11_subsection_title_shapes (lit " ") 49%N [] 49%N (lit "0") (lit " ")
           (lit "Scope Note") eq_refl eq_refl eq_refl eq_refl eq_refl eq_refl).
Defined.

(** X12: when the two-level number of a second-level heading ends with a
    period ("N.M."), the title keeps that period and the white space after
    it, for every such heading with a non-empty trimmed title. *)
Theorem X12_subsection_title_keeps_final_period :
  forall (ws : jsstring) (d : char) (n : jsstring) (e : char) (m ws' t : jsstring),
    forallb is_space ws = true ->
    forallb is_digit (d :: n) = true ->
    forallb is_digit (e :: m) = true ->
    trim t = t ->
    t <> [] ->
    subsection_title
      (lit "####" ++ ws ++ (d :: n) ++ dot :: (e :: m) ++ dot :: ws' ++ t)
    = dot :: ws' ++ t.
Proof.
  intros ws d n e m ws' t Hws Hn Hm Ht Hne.
  assert (is_digit d = true) as Hd
    by (cbn [forallb] in Hn; by apply andb_prop in Hn as [? _]).
  pose proof (is_digit_not_space d Hd) as Hds.
  unfold subsection_title.
  rewrite replace_h4 by (done || (cbn [app trimStart]; by rewrite Hds)).
  rewrite (replace_num_num d n e m [] (dot :: ws' ++ t) Hn Hm eq_refl
             eq_refl eq_refl
           : replace re_num_num ((d :: n) ++ dot :: (e :: m) ++ dot :: ws' ++ t)
             = dot :: ws' ++ t).
  rewrite replace_num_num_dot_other by done.
  unfold trim. change (trimStart (dot :: ws' ++ t)) with (dot :: ws' ++ t).
  apply (trimEnd_app_r (dot :: ws') t); [by apply trimEnd_of_trimmed|done].
Qed.

Lemma X12_witness :
  forallb is_space (lit " ") = true
  /\ forallb is_digit (lit "1") = true
  /\ forallb is_digit (lit "1") = true
  /\ trim (lit "Title") = lit "Title"
  /\ lit "Title" <> []
  /\ subsection_title (lit "#### 1.1. Title") = lit ". Title".
Proof.
  do 4 (split; [reflexivity|]). split; [discriminate|].
  apply (X12_subsection_title_keeps_final_period (lit " ") 49%N [] 49%N []
           (lit " ") (lit "Title") eq_refl eq_refl eq_refl eq_refl).
  discriminate.
Defined.

(** * The metadata of the result *)

Section Metadata.

Lemma year_digits (z : Z) :
  (1000 <= z <= 9999)%Z ->
  length (String_of_Z z) = 4 /\ forallb is_digit (String_of_Z z) = true.
Proof.
  intros Hz.
  assert (forallb (fun z => (length (String_of_Z z) =? 4)
                            && forallb is_digit (String_of_Z z))
                  (seqZ 1000 9000) = true) as H by (vm_compute; reflexivity).
  rewrite forallb_forall in H. specialize (H z).
  assert (In z (seqZ 1000 9000)) as Hin
    by (apply list_elem_of_In, elem_of_seqZ; lia).
  destruct (andb_prop _ _ (H Hin)) as [H1 H2].
  by apply Nat.eqb_eq in H1.
Qed.

Lemma padded_digits w n :
  (w = 2 /\ n <= 12) \/ (w = 3 /\ n < 1000) ->
  length (padStart w 48%N (String_of_nat n)) = w
  /\ forallb is_digit (padStart w 48%N (String_of_nat n)) = true.
Proof.
  assert (forallb (fun n => (length (padStart 2 48%N (String_of_nat n)) =? 2)
                            && forallb is_digit (padStart 2 48%N (String_of_nat n)))
                  (seq 0 13) = true) as H2 by (vm_compute; reflexivity).
  assert (forallb (fun n => (length (padStart 3 48%N (String_of_nat n)) =? 3)
                            && forallb is_digit (padStart 3 48%N (String_of_nat n)))
                  (seq 0 1000) = true) as H3 by (vm_compute; reflexivity).
  rewrite forallb_forall in H2, H3.
  intros [[-> Hn]|[-> Hn]].
  - destruct (andb_prop _ _ (H2 n ltac:(apply in_seq; lia))) as [Ha Hb].
    by apply Nat.eqb_eq in Ha.
  - destruct (andb_prop _ _ (H3 n ltac:(apply in_seq; lia))) as [Ha Hb].
    by apply Nat.eqb_eq in Ha.
Qed.

Lemma split_head sep d rest :
  forallb (fun c => negb (c =? sep)%N) d = true ->
  head (split sep (d ++ sep :: rest)) = Some d.
Proof.
  induction d as [|c d IH]; cbn [forallb app split].
  - by rewrite N.eqb_refl.
  - intros H. apply andb_prop in H as [Hc Hd]. apply negb_true_iff in Hc.
    rewrite Hc. specialize (IH Hd).
    destruct (split sep (d ++ sep :: rest)); [done|].
    cbv [head] in *. by injection IH as ->.
Qed.

End Metadata.

(** X13: for a four-digit year, a month index below 12 and a random draw
    below 1000, the document number is "SOP-", four digits, "-", two
    digits, "-", three digits: fifteen units in all. *)
Theorem X13_documentNumber_format :
  forall (env : Ambient),
    (1000 <= getFullYear (now env) <= 9999)%Z ->
    getMonth (now env) < 12 ->
    random1000 env < 1000 ->
    exists y m r,
      documentNumber env = lit "SOP-" ++ y ++ lit "-" ++ m ++ lit "-" ++ r
      /\ length y = 4 /\ length m = 2 /\ length r = 3
      /\ forallb is_digit (y ++ m ++ r) = true
      /\ length (documentNumber env) = 15.
Proof.
  intros env Hy Hm Hr.
  destruct (year_digits (getFullYear (now env)) Hy) as [Y1 Y2].
  destruct (padded_digits 2 (getMonth (now env) + 1) ltac:(left; lia)) as [M1 M2].
  destruct (padded_digits 3 (random1000 env) ltac:(right; lia)) as [R1 R2].
  eexists _, _, _. split; [reflexivity|].
  split; [exact Y1|]. split; [exact M1|]. split; [exact R1|]. split.
  - by rewrite !forallb_app, Y2, M2, R2.
  - unfold documentNumber. rewrite !length_app, Y1, M1, R1. reflexivity.
Qed.

Lemma X13_witness :
  (1000 <= getFullYear (now Sample.november) <= 9999)%Z
  /\ getMonth (now Sample.november) < 12
  /\ random1000 Sample.november < 1000
  /\ exists y m r,
       documentNumber Sample.november
       = lit "SOP-" ++ y ++ lit "-" ++ m ++ lit "-" ++ r
       /\ length y = 4 /\ length m = 2 /\ length r = 3
       /\ forallb is_digit (y ++ m ++ r) = true
       /\ length (documentNumber Sample.november) = 15.
Proof.
  split; [simpl; lia|]. split; [simpl; lia|]. split; [simpl; lia|].
  apply (X13_documentNumber_format Sample.november); simpl; lia.
Defined.

(** X14: when the ISO string of the clock reading is a date without "T",
    then "T", then the rest, the effective date is that date. *)
Theorem X14_effectiveDate_is_date_part :
  forall (env : Ambient) (d rest : jsstring),
    toISOString (now env) = d ++ 84%N :: rest ->
    forallb (fun c => negb (c =? 84)%N) d = true ->
    effectiveDate env = d.
Proof.
  intros env d rest Hiso Hd. unfold effectiveDate.
  by rewrite Hiso, split_head.
Qed.

Lemma X14_witness :
  toISOString (now Sample.november) = lit "2026-11-02" ++ 84%N :: lit "09:30:00.000Z"
  /\ forallb (fun c => negb (c =? 84)%N) (lit "2026-11-02") = true
  /\ effectiveDate Sample.november = lit "2026-11-02".
Proof.
  split; [reflexivity|]. split; [reflexivity|].
  apply (X14_effectiveDate_is_date_part Sample.november (lit "2026-11-02")
           (lit "09:30:00.000Z") eq_refl eq_refl).
Defined.

(** * The pattern choice of the image generator *)

Section Patterns.

Import ImageGenerator.

Lemma startsWith_app_sep needle sep : forall a b,
  forallb (fun c => negb (c =? sep)%N) needle = true ->
  startsWith needle (a ++ sep :: b) = startsWith needle a.
Proof.
  induction needle as [|y needle IH]; intros a b H; [by destruct a|].
  cbn [forallb] in H. apply andb_prop in H as [Hy H].
  apply negb_true_iff in Hy. destruct a as [|x a]; cbn [app startsWith].
  - by rewrite Hy.
  - by rewrite IH.
Qed.

Lemma includes_nil needle : needle <> [] -> includes needle [] = false.
Proof. by destruct needle. Qed.

(** A word without the separator is found in two parts joined by the
    separator exactly when it is found in one of them. *)
Lemma includes_app_sep needle sep a b :
  needle <> [] ->
  forallb (fun c => negb (c =? sep)%N) needle = true ->
  includes needle (a ++ sep :: b) = includes needle a || includes needle b.
Proof.
  intros Hne H. induction a as [|x a IH].
  - rewrite includes_nil by done. cbn [app includes orb].
    pose proof (startsWith_app_sep needle sep [] b H) as E. cbn [app] in E.
    rewrite E. by destruct needle.
  - pose proof (startsWith_app_sep needle sep (x :: a) b H) as E.
    cbn [app] in E. cbn [app includes]. rewrite E, IH.
    by rewrite orb_assoc.
Qed.

Lemma includes_join needle sep ks :
  needle <> [] ->
  forallb (fun c => negb (c =? sep)%N) needle = true ->
  includes needle (join [sep] ks) = existsb (includes needle) ks.
Proof.
  intros Hne H. induction ks as [|k r IH]; [by apply includes_nil|].
  cbn [join existsb]. destruct r as [|k' r].
  - cbn [existsb]. by rewrite orb_false_r.
  - cbn [app]. by rewrite includes_app_sep, IH.
Qed.

Lemma lower_join ks :
  map lower_ascii (join (lit " ") ks) = join (lit " ") (map (map lower_ascii) ks).
Proof.
  induction ks as [|k r IH]; [done|]. cbn [join map].
  destruct r as [|k' r]; [done|]. by rewrite !map_app, IH.
Qed.

Lemma is_ascii_join ks :
  forallb is_ascii ks = true -> is_ascii (join (lit " ") ks) = true.
Proof.
  induction ks as [|k r IH]; [done|]. cbn [forallb join].
  intros H. apply andb_prop in H as [Hk Hr].
  destruct r as [|k' r]; [done|]. unfold is_ascii in *.
  rewrite forallb_app. apply andb_true_intro. split; [exact Hk|].
  rewrite forallb_app. apply andb_true_intro. split; [done|exact (IH Hr)].
Qed.

Lemma existsb_mentions needle ks :
  existsb (includes needle) (map (map lower_ascii) ks)
  = existsb (mentions needle) ks.
Proof. induction ks as [|k r IH]; [done|]. cbn [map existsb]. by rewrite IH. Qed.

(** On keywords below 128, a word without a space is found in the lowered,
    joined keywords exactly when one keyword mentions it. *)
Lemma includes_keywordStr toLowerCase needle ks :
  (forall s, is_ascii s = true -> toLowerCase s = map lower_ascii s) ->
  forallb is_ascii ks = true ->
  needle <> [] ->
  forallb (fun c => negb (c =? 32)%N) needle = true ->
  includes needle (toLowerCase (join (lit " ") ks))
  = existsb (mentions needle) ks.
Proof.
  intros Hlow Hks Hne Hsp.
  rewrite Hlow by (by apply is_ascii_join).
  rewrite lower_join, <- existsb_mentions.
  by apply (includes_join needle 32%N).
Qed.

Lemma select_by_mention toLowerCase keywords :
  (forall s, is_ascii s = true -> toLowerCase s = map lower_ascii s) ->
  forallb is_ascii keywords = true ->
  selectPatternByKeywords toLowerCase keywords
  = if existsb (mentions (lit "manufacturing")) keywords
       || existsb (mentions (lit "production")) keywords
    then Manufacturing
    else if existsb (mentions (lit "software")) keywords
            || existsb (mentions (lit "technology")) keywords
    then Technology
    else if existsb (mentions (lit "healthcare")) keywords
            || existsb (mentions (lit "medical")) keywords
    then Healthcare
    else if existsb (mentions (lit "finance")) keywords
            || existsb (mentions (lit "banking")) keywords
    then Finance
    else Generic.
Proof.
  intros Hlow Hks. unfold selectPatternByKeywords. cbn zeta.
  by rewrite !(includes_keywordStr toLowerCase _ keywords Hlow Hks).
Qed.

End Patterns.

(** X15: for keywords made of code units below 128, the pattern is chosen
    by which keyword mentions which word, whatever the case of its
    letters: "manufacturing" or "production" first, then "software" or
    "technology", then "healthcare" or "medical", then "finance" or
    "banking", and the generic pattern otherwise. A word is never found
    across two keywords. *)
Theorem X15_pattern_by_keyword_mention :
  forall (toLowerCase : jsstring -> jsstring) (keywords : list jsstring),
    (forall s, ImageGenerator.is_ascii s = true ->
               toLowerCase s = map ImageGenerator.lower_ascii s) ->
    forallb ImageGenerator.is_ascii keywords = true ->
    ImageGenerator.selectPatternByKeywords toLowerCase keywords
    = if existsb (ImageGenerator.mentions (lit "manufacturing")) keywords
         || existsb (ImageGenerator.mentions (lit "production")) keywords
      then ImageGenerator.Manufacturing
      else if existsb (ImageGenerator.mentions (lit "software")) keywords
              || existsb (ImageGenerator.mentions (lit "technology")) keywords
      then ImageGenerator.Technology
      else if existsb (ImageGenerator.mentions (lit "healthcare")) keywords
              || existsb (ImageGenerator.mentions (lit "medical")) keywords
      then ImageGenerator.Healthcare
      else if existsb (ImageGenerator.mentions (lit "finance")) keywords
              || existsb (ImageGenerator.mentions (lit "banking")) keywords
      then ImageGenerator.Finance
      else ImageGenerator.Generic.
Proof.
  intros toLowerCase keywords Hlow Hks. by apply select_by_mention.
Qed.

Lemma X15_witness :
  (forall s, ImageGenerator.is_ascii s = true ->
             map ImageGenerator.lower_ascii s = map ImageGenerator.lower_ascii s)
  /\ forallb ImageGenerator.is_ascii [lit "Finance"; lit "SOFTWARE tools"] = true
  /\ ImageGenerator.selectPatternByKeywords (map ImageGenerator.lower_ascii)
       [lit "Finance"; lit "SOFTWARE tools"]
     = ImageGenerator.Technology.
Proof.
  split; [reflexivity|]. split; [reflexivity|].
  rewrite (X15_pattern_by_keyword_mention (map ImageGenerator.lower_ascii)
             [lit "Finance"; lit "SOFTWARE tools"] (fun _ _ => eq_refl) eq_refl).
  reflexivity.
Defined.

(** X16: without keywords (the three default ones are used) and with an
    empty keyword list, the generic pattern is chosen. *)
Theorem X16_no_keywords_generic_pattern :
  forall (toLowerCase : jsstring -> jsstring),
    (forall s, ImageGenerator.is_ascii s = true ->
               toLowerCase s = map ImageGenerator.lower_ascii s) ->
    ImageGenerator.fallbackPattern toLowerCase None = ImageGenerator.Generic
    /\ ImageGenerator.fallbackPattern toLowerCase (Some [])
       = ImageGenerator.Generic.
Proof.
  intros toLowerCase Hlow. unfold ImageGenerator.fallbackPattern.
  split; cbn [default from_option]; unfold id.
  - by rewrite (select_by_mention toLowerCase
                  [lit "process"; lit "workflow"; lit "quality"] Hlow eq_refl).
  - by rewrite (select_by_mention toLowerCase [] Hlow eq_refl).
Qed.

Lemma X16_witness :
  (forall s, ImageGenerator.is_ascii s = true ->
             map ImageGenerator.lower_ascii s = map ImageGenerator.lower_ascii s)
  /\ ImageGenerator.fallbackPattern (map ImageGenerator.lower_ascii) None
     = ImageGenerator.Generic
  /\ ImageGenerator.fallbackPattern (map ImageGenerator.lower_ascii) (Some [])
     = ImageGenerator.Generic.
Proof.
  split; [reflexivity|].
  apply (X16_no_keywords_generic_pattern (map ImageGenerator.lower_ascii)
           (fun _ _ => eq_refl)).
Defined.


(** * The node of a heading line *)

Section NodeOfHeading.

Lemma body_take_until lines :
  body lines
  = concat (map with_newline
              (List.filter content_line (take_until heading_line lines))).
Proof.
  induction lines as [|l r IH]; [done|].
  cbn [body take_until]. unfold heading_line at 1.
  destruct (is_main (trim l) || is_sub (trim l)) eqn:E; [done|].
  apply orb_false_elim in E as [E1 E2].
  cbn [List.filter]. unfold content_line at 1. rewrite E1, E2. cbn [negb andb].
  destruct (0 <? length (trim l)); [|exact IH].
  cbn [map concat]. unfold with_newline at 1. by rewrite <- app_assoc, IH.
Qed.

(** A "###" line adds one section entry after the entries already there. *)
Lemma run_main_entries a l post :
  is_main (trim l) = true ->
  concat (map sec_entries (view (run a (l :: post))))
  = concat (map sec_entries (view a))
    ++ {| e_rank := MainSection;
          e_number := String_of_nat (a_secNo a);
          e_title := section_title (trim l);
          e_content := body post |}
       :: map (leaf_entry SubSection)
              (subs_of (String_of_nat (a_secNo a)) 1 post)
          ++ concat (map sec_entries (secs_of (S (a_secNo a)) post)).
Proof.
  intros E1. rewrite run_cons, view_run. unfold step. cbn zeta. rewrite E1.
  cbn [a_done a_cur a_secNo a_subNo]. rewrite !sec_entries_app.
  unfold complete, grow_open. cbn [fst snd map concat app].
  rewrite sec_entries_mk, reverse_nil, app_nil_r. cbn [app l_number].
  by unfold leaf_entry at 1, grow.
Qed.

End NodeOfHeading.

(** X17: a heading line that is of first level, or of second level with a
    first-level heading before it, gives exactly one node, placed right
    after the nodes of the lines before it: its rank and title are those of
    the heading, and its content is the content lines that follow up to the
    next heading line, each with a newline. *)
Theorem X17_node_of_heading_line :
  forall (any : Type) (env : Ambient) (text : jsstring)
         (input : SOPTextInput any) (pre : list jsstring) (h : jsstring)
         (post : list jsstring),
    split LF text = pre ++ h :: post ->
    heading_line h = true ->
    main_line h || existsb main_line pre = true ->
    exists before num B,
      parse_lines pre = Some before
      /\ (fun d => entries (doc_sections d))
           <$> parseSOPResponse env text input
         = Some (entries before
                 ++ {| e_rank := (outline_of h).1; e_number := num;
                       e_title := (outline_of h).2;
                       e_content :=
                         concat (map with_newline
                                   (List.filter content_line
                                      (take_until heading_line post))) |}
                    :: B).
Proof.
  intros any env text input pre h post Hsplit Hh Hopen.
  exists (map tree_of_sec (view (run start pre))).
  rewrite sections_fmap_parse_lines, Hsplit, !parse_lines_run, run_app.
  cbn [fmap option_fmap option_map]. rewrite !entries_tree_of_sec.
  rewrite <- body_take_until. unfold outline_of, main_line in *.
  destruct (is_main (trim h)) eqn:E1.
  - eexists _, _. split; [reflexivity|].
    by rewrite (run_main_entries _ h post E1).
  - unfold heading_line in Hh. rewrite E1 in Hh. cbn [orb] in Hh, Hopen.
    destruct (run_main_seen pre start Hopen) as [[hd subs] Hc].
    eexists _, _. split; [reflexivity|].
    by rewrite (run_sub_open _ hd subs h post Hh Hc).
Qed.

Lemma X17_witness :
  split LF Sample.scenario
  = [lit "### Purpose"; lit "This explains why."]
    ++ lit "#### Scope Note"
       :: [lit "Limited to dept A."; lit "### Procedure";
           lit "1. Step One - do thing"; lit ""]
  /\ heading_line (lit "#### Scope Note") = true
  /\ main_line (lit "#### Scope Note")
     || existsb main_line [lit "### Purpose"; lit "This explains why."] = true
  /\ exists before num B,
       parse_lines [lit "### Purpose"; lit "This explains why."] = Some before
       /\ (fun d => entries (doc_sections d))
            <$> parseSOPResponse Sample.november Sample.scenario
                  (Sample.input "Doc")
          = Some (entries before
                  ++ {| e_rank := (outline_of (lit "#### Scope Note")).1;
                        e_number := num;
                        e_title := (outline_of (lit "#### Scope Note")).2;
                        e_content :=
                          concat (map with_newline
                                    (List.filter content_line
                                       (take_until heading_line
                                          [lit "Limited to dept A.";
                                           lit "### Procedure";
                                           lit "1. Step One - do thing";
                                           lit ""]))) |}
                     :: B).
Proof.
  split; [reflexivity|]. split; [reflexivity|]. split; [reflexivity|].
  apply (X17_node_of_heading_line unit Sample.november Sample.scenario
           (Sample.input "Doc") [lit "### Purpose"; lit "This explains why."]
           (lit "#### Scope Note")
           [lit "Limited to dept A."; lit "### Procedure";
            lit "1. Step One - do thing"; lit ""] eq_refl eq_refl eq_refl).
Defined.
